(** * gofrs-uuid: the generator (generator.go)

    A shallow embedding of the UUID generator: the clock-sequence tracker,
    the monotonic batch counter, the cached hardware address and the
    per-version byte layouts, followed by the properties proved about them.

    Conventions.
    - A Go unsigned integer of width w is a [Z] kept in [0, 2^w) by an
      explicit conversion ([uint8], [uint16], [uint32], [uint64]); [int64]
      is the signed wrap-around.
    - [UUID] is Go's [16]byte, a [list Z] of bytes, written by index with
      stdpp's list insert.
    - A method with a pointer receiver is a state transformer
      [M S A := S -> result A * S]: the receiver after the call is always
      returned, also next to an error, since Go keeps the writes made
      before a failing return. *)

From Stdlib Require Import ZArith List Lia Bool String Ascii.
From stdpp Require Import base list.
Import ListNotations.
Open Scope Z_scope.

(** ** Machine integers *)

Definition uint8 (x : Z) : Z := x mod 2 ^ 8.
Definition uint16 (x : Z) : Z := x mod 2 ^ 16.
Definition uint32 (x : Z) : Z := x mod 2 ^ 32.
Definition uint64 (x : Z) : Z := x mod 2 ^ 64.
Definition int64 (x : Z) : Z := (x + 2 ^ 63) mod 2 ^ 64 - 2 ^ 63.

(** ** Errors and results *)

Inductive error : Type :=
  | errorString (msg : string)     (* errors.New(msg) *)
  | EOF                            (* io.EOF *)
  | ErrUnexpectedEOF               (* io.ErrUnexpectedEOF *)
  | ErrNoHwAddressFound
  | ErrOther (code : nat).         (* any other error of a collaborator *)

Inductive result (A : Type) : Type :=
  | Ok (a : A)
  | Err (e : error).
Arguments Ok {A} a.
Arguments Err {A} e.

Definition is_Ok {A} (r : result A) : bool :=
  match r with Ok _ => true | Err _ => false end.

(** State transformers with errors. *)
Definition M (S A : Type) : Type := S -> result A * S.

Definition ret {S A} (a : A) : M S A := fun s => (Ok a, s).
Definition fail {S A} (e : error) : M S A := fun s => (Err e, s).
Definition bind {S A B} (m : M S A) (k : A -> M S B) : M S B :=
  fun s => match m s with
           | (Ok a, s') => k a s'
           | (Err e, s') => (Err e, s')
           end.

Notation "x <- m ;; k" := (bind m (fun x => k))
  (at level 20, m at level 99, k at level 200, only parsing).
Notation "m ;;; k" := (bind m (fun _ => k))
  (at level 100, k at level 200, only parsing, right associativity).
Notation "' pat <- m ;; k" := (bind m (fun x => match x with pat => k end))
  (at level 20, pat pattern, m at level 99, k at level 200, only parsing).

(** ** time.Time *)

(** Go's [time.Time] as seconds since the Unix epoch and the nanoseconds
    within that second. *)
Record Time : Type := mkTime { unixSec : Z; nsec : Z }.

(** [t.unixSec()*1e3 + int64(t.nsec())/1e6] *)
Definition UnixMilli (t : Time) : Z :=
  int64 (unixSec t * 1000 + Z.quot (nsec t) 1000000).

(** [t.unixSec()*1e9 + int64(t.nsec())] *)
Definition UnixNano (t : Time) : Z :=
  int64 (unixSec t * 1000000000 + nsec t).

(** ** io.Reader and io.ReadFull *)

(** A reader is a script of outcomes, one per byte asked for, and the
    position reached: [inl b] delivers the byte [b], [inr e] makes the read
    fail with [e].  A failure is consumed, so a later read may succeed. *)
Record Reader : Type := mkReader { script : nat -> Z + error; pos : nat }.

Definition unexpected (e : error) : error :=
  match e with EOF => ErrUnexpectedEOF | _ => e end.

(** Fills [buf] from position [p]; on a failure the bytes already read stay
    in the buffer and the rest of it is left as it was. *)
Fixpoint fill (src : nat -> Z + error) (p : nat) (first : bool) (buf : list Z)
  : list Z * nat * option error :=
  match buf with
  | [] => ([], p, None)
  | b :: rest =>
      match src p with
      | inl x =>
          let '(rest', p', e) := fill src (S p) false rest in
          (uint8 x :: rest', p', e)
      | inr e => (b :: rest, S p, Some (if first then e else unexpected e))
      end
  end.

(** [io.ReadFull(r, buf)]: the buffer after the call, the reader after the
    call and the error, if any. *)
Definition ReadFull (r : Reader) (buf : list Z) : list Z * Reader * option error :=
  let '(buf', p', e) := fill (script r) (pos r) true buf in
  (buf', mkReader (script r) p', e).

(** ** encoding/binary, big endian *)

Definition BigEndian_Uint16 (b : list Z) : Z :=
  Z.lor (Z.shiftl (nth 0 b 0) 8) (nth 1 b 0).

Definition BigEndian_Uint32 (b : list Z) : Z :=
  Z.lor (Z.lor (Z.lor (Z.shiftl (nth 0 b 0) 24) (Z.shiftl (nth 1 b 0) 16))
               (Z.shiftl (nth 2 b 0) 8)) (nth 3 b 0).

(** [binary.BigEndian.PutUint16(u[off:], v)] *)
Definition BigEndian_PutUint16 (off : nat) (v : Z) (u : list Z) : list Z :=
  <[S off := uint8 v]> (<[off := uint8 (Z.shiftr v 8)]> u).

(** [binary.BigEndian.PutUint32(u[off:], v)] *)
Definition BigEndian_PutUint32 (off : nat) (v : Z) (u : list Z) : list Z :=
  <[S (S (S off)) := uint8 v]>
    (<[S (S off) := uint8 (Z.shiftr v 8)]>
       (<[S off := uint8 (Z.shiftr v 16)]>
          (<[off := uint8 (Z.shiftr v 24)]> u))).

(** The built-in [copy(dst, src)]: the first [min (len dst) (len src)]
    bytes of [dst] are replaced. *)
Definition copy (dst src : list Z) : list Z :=
  take (length dst) src ++ drop (length src) dst.

(** ** UUID *)

Definition UUID : Type := list Z.

(** [UUID{}], which is also the package's [Nil]. *)
Definition Nil : UUID := replicate 16 0.

Definition V1 : Z := 1.
Definition V3 : Z := 3.
Definition V4 : Z := 4.
Definition V5 : Z := 5.
Definition V6 : Z := 6.
Definition V7 : Z := 7.

(** Modelled from the spec: [UUID.SetVersion] is declared outside
    generator.go; it overwrites the version nibble, the top four bits of
    byte 6, and keeps the low four. *)
Definition SetVersion (v : Z) (u : UUID) : UUID :=
  alter (fun b => Z.lor (Z.land b 15) (uint8 (Z.shiftl v 4))) 6%nat u.

(** Modelled from the spec: [UUID.SetVariant(VariantRFC9562)] is declared
    outside generator.go; it overwrites the top two bits of byte 8 with the
    pattern 10 and keeps the low six. *)
Definition SetVariantRFC9562 (u : UUID) : UUID :=
  alter (fun b => Z.lor (Z.land b 63) 128) 8%nat u.

(** Byte-wise lexicographic comparison, [bytes.Compare(a, b) < 0]. *)
Fixpoint lex_lt (a b : list Z) : bool :=
  match a, b with
  | _, [] => false
  | [], _ :: _ => true
  | x :: a', y :: b' => (x <? y) || ((x =? y) && lex_lt a' b')
  end.

(** ** The generator *)

(** [EpochFunc] and [HWAddrFunc] are Go function values, which may answer
    differently from one call to the next: the answers are indexed by the
    number of calls made so far. *)
Record EpochFunc : Type := mkEpochFunc { clock : nat -> Time; ticks : nat }.

Record HWAddrFunc : Type :=
  mkHWAddrFunc { hwsrc : nat -> result (list Z); hwcalls : nat }.

Definition epochStart : Z := 122192928000000000.

Record Gen : Type := mkGen {
  clockSequenceOnce : bool;      (* true once the sync.Once has fired *)
  hardwareAddrOnce : bool;
  rand : Reader;
  epochFunc : EpochFunc;
  hwAddrFunc : HWAddrFunc;
  lastTime : Z;                  (* uint64 *)
  clockSequence : Z;             (* uint16 *)
  hardwareAddr : list Z          (* [6]byte *)
}.

Definition set_clockSequenceOnce (b : bool) (g : Gen) : Gen :=
  mkGen b (hardwareAddrOnce g) (rand g) (epochFunc g) (hwAddrFunc g)
        (lastTime g) (clockSequence g) (hardwareAddr g).
Definition set_hardwareAddrOnce (b : bool) (g : Gen) : Gen :=
  mkGen (clockSequenceOnce g) b (rand g) (epochFunc g) (hwAddrFunc g)
        (lastTime g) (clockSequence g) (hardwareAddr g).
Definition set_rand (r : Reader) (g : Gen) : Gen :=
  mkGen (clockSequenceOnce g) (hardwareAddrOnce g) r (epochFunc g) (hwAddrFunc g)
        (lastTime g) (clockSequence g) (hardwareAddr g).
Definition set_epochFunc (f : EpochFunc) (g : Gen) : Gen :=
  mkGen (clockSequenceOnce g) (hardwareAddrOnce g) (rand g) f (hwAddrFunc g)
        (lastTime g) (clockSequence g) (hardwareAddr g).
Definition set_hwAddrFunc (f : HWAddrFunc) (g : Gen) : Gen :=
  mkGen (clockSequenceOnce g) (hardwareAddrOnce g) (rand g) (epochFunc g) f
        (lastTime g) (clockSequence g) (hardwareAddr g).
Definition set_lastTime (t : Z) (g : Gen) : Gen :=
  mkGen (clockSequenceOnce g) (hardwareAddrOnce g) (rand g) (epochFunc g)
        (hwAddrFunc g) t (clockSequence g) (hardwareAddr g).
Definition set_clockSequence (c : Z) (g : Gen) : Gen :=
  mkGen (clockSequenceOnce g) (hardwareAddrOnce g) (rand g) (epochFunc g)
        (hwAddrFunc g) (lastTime g) c (hardwareAddr g).
Definition set_hardwareAddr (a : list Z) (g : Gen) : Gen :=
  mkGen (clockSequenceOnce g) (hardwareAddrOnce g) (rand g) (epochFunc g)
        (hwAddrFunc g) (lastTime g) (clockSequence g) a.

(** [MonotonicGen] embeds a [Gen] and adds the counter; it declares no
    timestamp of its own, so [g.lastTime] on a [MonotonicGen] is the
    promoted field of the embedded [Gen]. *)
Record MonotonicGen : Type := mkMonotonicGen {
  embedded : Gen;
  monotonicCounter : Z           (* uint16 *)
}.

Definition set_embedded (g : Gen) (m : MonotonicGen) : MonotonicGen :=
  mkMonotonicGen g (monotonicCounter m).
Definition set_monotonicCounter (c : Z) (m : MonotonicGen) : MonotonicGen :=
  mkMonotonicGen (embedded m) c.

(** A method of [Gen] called on a [MonotonicGen]. *)
Definition promoted {A} (m : M Gen A) : M MonotonicGen A :=
  fun g => let '(r, e) := m (embedded g) in (r, set_embedded e g).

(** *** Construction *)

(** The system services the options default to. *)
Record Defaults : Type := mkDefaults {
  time_Now : EpochFunc;
  rand_Reader : Reader;
  netInterfaces : nat -> result (list (list Z))   (* each interface's HardwareAddr *)
}.

Fixpoint firstHardwareAddr (ifaces : list (list Z)) : result (list Z) :=
  match ifaces with
  | [] => Err ErrNoHwAddressFound
  | a :: rest => if (6 <=? length a)%nat then Ok a else firstHardwareAddr rest
  end.

Definition defaultHWAddrFunc (d : Defaults) : HWAddrFunc :=
  mkHWAddrFunc
    (fun k => match netInterfaces d k with
              | Err e => Err e
              | Ok ifaces => firstHardwareAddr ifaces
              end) 0.

Definition GenOption : Type := Defaults -> Gen -> Gen.

Definition WithHWAddrFunc (hwaf : option HWAddrFunc) : GenOption :=
  fun d gen => set_hwAddrFunc (default (defaultHWAddrFunc d) hwaf) gen.

Definition WithEpochFunc (epochf : option EpochFunc) : GenOption :=
  fun d gen => set_epochFunc (default (time_Now d) epochf) gen.

Definition WithRandomReader (reader : option Reader) : GenOption :=
  fun d gen => set_rand (default (rand_Reader d) reader) gen.

Definition NewGenWithOptions (d : Defaults) (opts : list GenOption) : Gen :=
  fold_left (fun gen opt => opt d gen) opts
    (mkGen false false (rand_Reader d) (time_Now d) (defaultHWAddrFunc d)
           0 0 (replicate 6 0)).

Definition NewGenWithHWAF (d : Defaults) (hwaf : option HWAddrFunc) : Gen :=
  NewGenWithOptions d [WithHWAddrFunc hwaf].

Definition NewGen (d : Defaults) : Gen := NewGenWithHWAF d (Some (defaultHWAddrFunc d)).

Definition NewMonotonicGen (d : Defaults) (opts : list GenOption) : MonotonicGen :=
  mkMonotonicGen (NewGenWithOptions d opts) 0.

(** *** Time, clock sequence, counter, hardware address *)

(** [g.epochFunc()] *)
Definition callEpochFunc : M Gen Time :=
  fun g => let f := epochFunc g in
           (Ok (clock f (ticks f)), set_epochFunc (mkEpochFunc (clock f) (S (ticks f))) g).

Definition getEpoch (atTime : Time) : Z :=
  uint64 (epochStart + uint64 (Z.quot (UnixNano atTime) 100)).

(** The timestamp both trackers compute from the caller's flag. *)
Definition timestamp (useUnixTSMs : bool) (atTime : Time) : Z :=
  if useUnixTSMs then uint64 (UnixMilli atTime) else getEpoch atTime.

(** [g.clockSequenceOnce.Do(...)] followed by the test of [err]. *)
Definition seedClockSequence : M Gen unit :=
  fun g =>
    if clockSequenceOnce g then (Ok tt, g)
    else
      let '(buf, r, e) := ReadFull (rand g) [0; 0] in
      let g1 := set_rand r (set_clockSequenceOnce true g) in
      match e with
      | Some err => (Err err, g1)
      | None => (Ok tt, set_clockSequence (BigEndian_Uint16 buf) g1)
      end.

Definition getClockSequence (useUnixTSMs : bool) (atTime : Time) : M Gen (Z * Z) :=
  seedClockSequence ;;;
  fun g =>
    let timeNow := timestamp useUnixTSMs atTime in
    let g1 := if timeNow <=? lastTime g
              then set_clockSequence (uint16 (clockSequence g + 1)) g
              else g in
    let g2 := set_lastTime timeNow g1 in
    (Ok (timeNow, clockSequence g2), g2).

Definition getMonotonicClockSequence (useUnixTSMs : bool) (atTime : Time)
  : M MonotonicGen (Z * Z) :=
  fun g =>
    let timeNow := timestamp useUnixTSMs atTime in
    let g1 := if timeNow <=? lastTime (embedded g)
              then set_monotonicCounter (uint16 (monotonicCounter g + 1)) g
              else set_monotonicCounter 0 g in
    let g2 := set_embedded (set_lastTime timeNow (embedded g1)) g1 in
    (Ok (timeNow, monotonicCounter g2), g2).

(** [g.hardwareAddrOnce.Do(...)] followed by the test of [err]. *)
Definition resolveHardwareAddr : M Gen unit :=
  fun g =>
    if hardwareAddrOnce g then (Ok tt, g)
    else
      let f := hwAddrFunc g in
      let g1 := set_hwAddrFunc (mkHWAddrFunc (hwsrc f) (S (hwcalls f)))
                  (set_hardwareAddrOnce true g) in
      match hwsrc f (hwcalls f) with
      | Ok hwAddr => (Ok tt, set_hardwareAddr (copy (hardwareAddr g1) hwAddr) g1)
      | Err _ =>
          let '(buf, r, e) := ReadFull (rand g1) (hardwareAddr g1) in
          let g2 := set_hardwareAddr buf (set_rand r g1) in
          match e with
          | Some err => (Err err, g2)
          | None =>
              (Ok tt, set_hardwareAddr
                        (alter (fun b => Z.lor b 1) 0%nat (hardwareAddr g2)) g2)
          end
      end.

Definition getHardwareAddr : M Gen (list Z) :=
  resolveHardwareAddr ;;;
  fun g => (Ok (hardwareAddr g), g).

(** ** Hashes

    [crypto/md5] and [crypto/sha1] belong to Go's standard library; the
    digests are RFC 1321 and RFC 3174 over lists of bytes.  A [hash.Hash]
    is its digest function and the bytes written so far. *)

Definition rotl32 (x : Z) (c : Z) : Z :=
  uint32 (Z.lor (Z.shiftl x c) (Z.shiftr x (32 - c))).

Definition not32 (x : Z) : Z := Z.lxor x 0xffffffff.

(** The message cut into [n] blocks of 64 bytes. *)
Fixpoint blocks (n : nat) (l : list Z) : list (list Z) :=
  match n with
  | O => []
  | S n' => take 64 l :: blocks n' (drop 64 l)
  end.

(** Padding shared by both hashes: 0x80, zeros up to 56 modulo 64, then the
    bit length in 8 bytes given by [len64]. *)
Definition pad (len64 : Z -> list Z) (msg : list Z) : list Z :=
  let n := Z.of_nat (length msg) in
  let zeros := Z.to_nat ((55 - n) mod 64) in
  msg ++ [128] ++ replicate zeros 0 ++ len64 (uint64 (8 * n)).

Fixpoint le_bytes (k : nat) (x : Z) : list Z :=
  match k with
  | O => []
  | S k' => uint8 x :: le_bytes k' (Z.shiftr x 8)
  end.

Definition be_bytes (k : nat) (x : Z) : list Z := rev (le_bytes k x).

Fixpoint le_word (b : list Z) : Z :=
  match b with
  | [] => 0
  | x :: r => Z.lor x (Z.shiftl (le_word r) 8)
  end.

Definition be_word (b : list Z) : Z := le_word (rev b).

(** The [k]-byte words of a block. *)
Fixpoint words (k n : nat) (dec : list Z -> Z) (b : list Z) : list Z :=
  match n with
  | O => []
  | S n' => dec (take k b) :: words k n' dec (drop k b)
  end.

Module MD5.

Definition K : list Z :=
  [
   0xd76aa478; 0xe8c7b756; 0x242070db; 0xc1bdceee;
   0xf57c0faf; 0x4787c62a; 0xa8304613; 0xfd469501;
   0x698098d8; 0x8b44f7af; 0xffff5bb1; 0x895cd7be;
   0x6b901122; 0xfd987193; 0xa679438e; 0x49b40821;
   0xf61e2562; 0xc040b340; 0x265e5a51; 0xe9b6c7aa;
   0xd62f105d; 0x02441453; 0xd8a1e681; 0xe7d3fbc8;
   0x21e1cde6; 0xc33707d6; 0xf4d50d87; 0x455a14ed;
   0xa9e3e905; 0xfcefa3f8; 0x676f02d9; 0x8d2a4c8a;
   0xfffa3942; 0x8771f681; 0x6d9d6122; 0xfde5380c;
   0xa4beea44; 0x4bdecfa9; 0xf6bb4b60; 0xbebfbc70;
   0x289b7ec6; 0xeaa127fa; 0xd4ef3085; 0x04881d05;
   0xd9d4d039; 0xe6db99e5; 0x1fa27cf8; 0xc4ac5665;
   0xf4292244; 0x432aff97; 0xab9423a7; 0xfc93a039;
   0x655b59c3; 0x8f0ccc92; 0xffeff47d; 0x85845dd1;
   0x6fa87e4f; 0xfe2ce6e0; 0xa3014314; 0x4e0811a1;
   0xf7537e82; 0xbd3af235; 0x2ad7d2bb; 0xeb86d391].

Definition shifts : list Z :=
  [7; 12; 17; 22; 7; 12; 17; 22; 7; 12; 17; 22; 7; 12; 17; 22;
   5; 9; 14; 20; 5; 9; 14; 20; 5; 9; 14; 20; 5; 9; 14; 20;
   4; 11; 16; 23; 4; 11; 16; 23; 4; 11; 16; 23; 4; 11; 16; 23;
   6; 10; 15; 21; 6; 10; 15; 21; 6; 10; 15; 21; 6; 10; 15; 21].

Definition state : Type := (Z * Z * Z * Z)%type.

Definition init : state := (0x67452301, 0xefcdab89, 0x98badcfe, 0x10325476).

Definition round (m : list Z) (i : nat) (st : state) : state :=
  let '(a, b, c, d) := st in
  let '(f, g) :=
    if (i <? 16)%nat then (Z.lor (Z.land b c) (Z.land (not32 b) d), i)
    else if (i <? 32)%nat then
      (Z.lor (Z.land d b) (Z.land (not32 d) c), ((5 * i + 1) mod 16)%nat)
    else if (i <? 48)%nat then
      (Z.lxor (Z.lxor b c) d, ((3 * i + 5) mod 16)%nat)
    else (Z.lxor c (Z.lor b (not32 d)), ((7 * i) mod 16)%nat) in
  let f' := uint32 (f + a + nth i K 0 + nth g m 0) in
  (d, uint32 (b + rotl32 f' (nth i shifts 0)), b, c).

Definition block (st : state) (blk : list Z) : state :=
  let m := words 4 16 le_word blk in
  let '(a, b, c, d) := fold_left (fun s i => round m i s) (seq 0 64) st in
  let '(a0, b0, c0, d0) := st in
  (uint32 (a0 + a), uint32 (b0 + b), uint32 (c0 + c), uint32 (d0 + d)).

Definition sum (msg : list Z) : list Z :=
  let p := pad (le_bytes 8) msg in
  let '(a, b, c, d) := fold_left block (blocks (length p / 64) p) init in
  le_bytes 4 a ++ le_bytes 4 b ++ le_bytes 4 c ++ le_bytes 4 d.

End MD5.

Module SHA1.

Definition state : Type := (Z * Z * Z * Z * Z)%type.

Definition init : state :=
  (0x67452301, 0xefcdab89, 0x98badcfe, 0x10325476, 0xc3d2e1f0).

(** The message schedule: [w] holds the words computed so far, the most
    recent first. *)
Fixpoint schedule (n : nat) (w : list Z) : list Z :=
  match n with
  | O => w
  | S n' =>
      let x := Z.lxor (Z.lxor (nth 2 w 0) (nth 7 w 0))
                      (Z.lxor (nth 13 w 0) (nth 15 w 0)) in
      schedule n' (rotl32 x 1 :: w)
  end.

Definition round (st : state) (iw : nat * Z) : state :=
  let '(a, b, c, d, e) := st in
  let '(i, w) := iw in
  let '(f, k) :=
    if (i <? 20)%nat then (Z.lor (Z.land b c) (Z.land (not32 b) d), 0x5a827999)
    else if (i <? 40)%nat then (Z.lxor (Z.lxor b c) d, 0x6ed9eba1)
    else if (i <? 60)%nat then
      (Z.lor (Z.lor (Z.land b c) (Z.land b d)) (Z.land c d), 0x8f1bbcdc)
    else (Z.lxor (Z.lxor b c) d, 0xca62c1d6) in
  (uint32 (rotl32 a 5 + f + e + k + w), a, rotl32 b 30, c, d).

Definition block (st : state) (blk : list Z) : state :=
  let w := rev (schedule 64 (rev (words 4 16 be_word blk))) in
  let '(a, b, c, d, e) := fold_left round (zip (seq 0 80) w) st in
  let '(a0, b0, c0, d0, e0) := st in
  (uint32 (a0 + a), uint32 (b0 + b), uint32 (c0 + c), uint32 (d0 + d),
   uint32 (e0 + e)).

Definition sum (msg : list Z) : list Z :=
  let p := pad (be_bytes 8) msg in
  let '(a, b, c, d, e) := fold_left block (blocks (length p / 64) p) init in
  be_bytes 4 a ++ be_bytes 4 b ++ be_bytes 4 c ++ be_bytes 4 d ++ be_bytes 4 e.

End SHA1.

Definition bytes_of_string (s : string) : list Z :=
  map (fun c => Z.of_N (N_of_ascii c)) (list_ascii_of_string s).

Definition string_of_bytes (l : list Z) : string :=
  string_of_list_ascii (map (fun b => ascii_of_N (Z.to_N b)) l).

Definition hex (l : list Z) : string :=
  let digit d := nth (Z.to_nat d) (list_ascii_of_string "0123456789abcdef") "0"%char in
  string_of_list_ascii (flat_map (fun b => [digit (b / 16); digit (b mod 16)]) l).

Record Hash : Type := mkHash { digest : list Z -> list Z; written : list Z }.

Definition md5_New : Hash := mkHash MD5.sum [].
Definition sha1_New : Hash := mkHash SHA1.sum [].

(** [h.Write(p)] and [h.Sum(b)] *)
Definition Hash_Write (p : list Z) (h : Hash) : Hash :=
  mkHash (digest h) (written h ++ p).
Definition Hash_Sum (b : list Z) (h : Hash) : list Z :=
  b ++ digest h (written h).

(** ** The version encoders *)

(** [io.ReadFull(g.rand, buf)] on a buffer local to the caller: the filled
    buffer, or the error. *)
Definition readRand (buf : list Z) : M Gen (list Z) :=
  fun g =>
    let '(buf', r, e) := ReadFull (rand g) buf in
    match e with
    | Some err => (Err err, set_rand r g)
    | None => (Ok buf', set_rand r g)
    end.

Definition NewV1AtTime (atTime : Time) : M Gen UUID :=
  ' (timeNow, clockSeq) <- getClockSequence false atTime ;;
  let u := BigEndian_PutUint32 0 (uint32 timeNow) Nil in
  let u := BigEndian_PutUint16 4 (uint16 (Z.shiftr timeNow 32)) u in
  let u := BigEndian_PutUint16 6 (uint16 (Z.shiftr timeNow 48)) u in
  let u := BigEndian_PutUint16 8 clockSeq u in
  hardwareAddr <- getHardwareAddr ;;
  let u := take 10 u ++ copy (drop 10 u) hardwareAddr in
  ret (SetVariantRFC9562 (SetVersion V1 u)).

Definition NewV1 : M Gen UUID :=
  t <- callEpochFunc ;; NewV1AtTime t.

Definition newFromHash (h : Hash) (ns : UUID) (name : string) : UUID :=
  let h := Hash_Write ns h in
  let h := Hash_Write (bytes_of_string name) h in
  copy Nil (Hash_Sum [] h).

(** [NewV3] and [NewV5] have the generator as receiver and never touch it. *)
Definition NewV3 (g : Gen) (ns : UUID) (name : string) : UUID :=
  SetVariantRFC9562 (SetVersion V3 (newFromHash md5_New ns name)).

Definition NewV4 : M Gen UUID :=
  u <- readRand Nil ;;
  ret (SetVariantRFC9562 (SetVersion V4 u)).

Definition NewV5 (g : Gen) (ns : UUID) (name : string) : UUID :=
  SetVariantRFC9562 (SetVersion V5 (newFromHash sha1_New ns name)).

Definition NewV6AtTime (atTime : Time) : M Gen UUID :=
  ' (timeNow, _) <- getClockSequence false atTime ;;
  let u := BigEndian_PutUint32 0 (uint32 (Z.shiftr timeNow 28)) Nil in
  let u := BigEndian_PutUint16 4 (uint16 (Z.shiftr timeNow 12)) u in
  let u := BigEndian_PutUint16 6 (uint16 (Z.land timeNow 0xfff)) u in
  tail <- readRand (drop 8 u) ;;
  let u := take 8 u ++ tail in
  ret (SetVariantRFC9562 (SetVersion V6 u)).

Definition NewV6 : M Gen UUID :=
  t <- callEpochFunc ;; NewV6AtTime t.

(** [u[0] = byte(ms >> 40)] ... [u[5] = byte(ms)] *)
Definition putUnixMs (ms : Z) (u : UUID) : UUID :=
  <[5%nat := uint8 ms]>
    (<[4%nat := uint8 (Z.shiftr ms 8)]>
       (<[3%nat := uint8 (Z.shiftr ms 16)]>
          (<[2%nat := uint8 (Z.shiftr ms 24)]>
             (<[1%nat := uint8 (Z.shiftr ms 32)]>
                (<[0%nat := uint8 (Z.shiftr ms 40)]> u))))).

Definition NewV7AtTime (atTime : Time) : M Gen UUID :=
  ' (ms, clockSeq) <- getClockSequence true atTime ;;
  let u := putUnixMs ms Nil in
  let u := BigEndian_PutUint16 6 clockSeq u in
  let u := SetVersion V7 u in
  tail <- readRand (drop 8 u) ;;
  let u := take 8 u ++ tail in
  ret (SetVariantRFC9562 u).

Definition NewV7 : M Gen UUID :=
  t <- callEpochFunc ;; NewV7AtTime t.

(** ** Batches *)

Definition newMonotonicV7 : M MonotonicGen UUID :=
  t <- promoted callEpochFunc ;;
  ' (ms, clockSeq) <- getMonotonicClockSequence true t ;;
  let u := putUnixMs ms Nil in
  let u := BigEndian_PutUint16 6 clockSeq u in
  let u := SetVersion V7 u in
  tail <- promoted (readRand (drop 8 u)) ;;
  let u := take 8 u ++ tail in
  ret (SetVariantRFC9562 u).

(** The loop [for i := 0; i < batchSize; i++], with [n] iterations left. *)
Fixpoint batchLoop (n : nat) (i : nat) (uuids : list UUID) : M MonotonicGen (list UUID) :=
  match n with
  | O => ret uuids
  | S n' =>
      uuid <- newMonotonicV7 ;;
      batchLoop n' (S i) (<[i := uuid]> uuids)
  end.

Definition GenerateBatchV7 (batchSize : Z) : M MonotonicGen (list UUID) :=
  if batchSize <=? 0
  then fail (errorString "batch size must be greater than zero")
  else batchLoop (Z.to_nat batchSize) 0 (replicate (Z.to_nat batchSize) Nil).

(** ** Test fixtures *)

Definition zeroReader : Reader := mkReader (fun _ => inl 0) 0.
Definition fixedClock (t : Time) : EpochFunc := mkEpochFunc (fun _ => t) 0.
Definition noHardware : HWAddrFunc := mkHWAddrFunc (fun _ => Err ErrNoHwAddressFound) 0.

Definition failingReader : Reader := mkReader (fun _ => inr EOF) 0.
Definition shortReader : Reader :=
  mkReader (fun i => if (i <? 2)%nat then inl 0xab else inr EOF) 0.

Definition stubDefaults : Defaults :=
  mkDefaults (fixedClock (mkTime 1700000000 0)) zeroReader (fun _ => Ok []).

(** ** Vocabulary of the statements *)

(** The bytes a reader delivers at positions [p], [p+1], ..., [p+n-1]
    (0 where the script fails). *)
Definition byteAt (src : nat -> Z + error) (i : nat) : Z :=
  match src i with inl x => uint8 x | inr _ => 0 end.

Definition bytesAt (src : nat -> Z + error) (p n : nat) : list Z :=
  map (byteAt src) (seq p n).

(** The next [n] bytes of the generator's random reader. *)
Definition nextRandom (g : Gen) (n : nat) : list Z :=
  bytesAt (script (rand g)) (pos (rand g)) n.

(** The clock sequence the update rule starts from: the stored one, or on
    the first call the seed just read. *)
Definition seededClockSequence (g : Gen) : Z :=
  if clockSequenceOnce g then clockSequence g
  else BigEndian_Uint16 (nextRandom g 2).

(** The DNS namespace, 6ba7b810-9dad-11d1-80b4-00c04fd430c8. *)
Definition NamespaceDNS : UUID :=
  [0x6b; 0xa7; 0xb8; 0x10; 0x9d; 0xad; 0x11; 0xd1;
   0x80; 0xb4; 0x00; 0xc0; 0x4f; 0xd4; 0x30; 0xc8].

(** The fields of the embedded generator that batch issuance leaves alone. *)
Definition sameSequenceState (g g' : Gen) : Prop :=
  clockSequence g' = clockSequence g
  /\ clockSequenceOnce g' = clockSequenceOnce g
  /\ hardwareAddr g' = hardwareAddr g
  /\ hardwareAddrOnce g' = hardwareAddrOnce g.

(** A series of tracker calls, one after the other, stopping at the first
    error. *)
Fixpoint trackerCalls (calls : list (bool * Time)) : M Gen (list (Z * Z)) :=
  match calls with
  | [] => ret []
  | (useUnixTSMs, atTime) :: rest =>
      r <- getClockSequence useUnixTSMs atTime ;;
      rs <- trackerCalls rest ;;
      ret (r :: rs)
  end.

(** The version-6 layout of a timestamp [t] and eight random bytes [r]. *)
Definition V6Layout (t : Z) (r : list Z) (u : UUID) : Prop :=
  exists r0 r1 r2 r3 r4 r5 r6 r7 : Z,
    r = [r0; r1; r2; r3; r4; r5; r6; r7]
    /\ u = [ (t / 2 ^ 52) mod 2 ^ 8; (t / 2 ^ 44) mod 2 ^ 8;
             (t / 2 ^ 36) mod 2 ^ 8; (t / 2 ^ 28) mod 2 ^ 8;
             (t / 2 ^ 20) mod 2 ^ 8; (t / 2 ^ 12) mod 2 ^ 8;
             0x60 + (t / 2 ^ 8) mod 2 ^ 4; t mod 2 ^ 8;
             0x80 + r0 mod 2 ^ 6; r1; r2; r3; r4; r5; r6; r7 ].

(** Two messages with the same MD5 digest (Wang and Yu, 2005).  They share
    their first 16 bytes, taken here as the namespace; the names are the
    remaining 112 bytes of each. *)
Definition collisionNamespace : UUID :=
  [
   0xd1; 0x31; 0xdd; 0x02; 0xc5; 0xe6; 0xee; 0xc4;
   0x69; 0x3d; 0x9a; 0x06; 0x98; 0xaf; 0xf9; 0x5c].

Definition collisionNameA : string :=
  string_of_bytes
  [
   0x2f; 0xca; 0xb5; 0x87; 0x12; 0x46; 0x7e; 0xab;
   0x40; 0x04; 0x58; 0x3e; 0xb8; 0xfb; 0x7f; 0x89;
   0x55; 0xad; 0x34; 0x06; 0x09; 0xf4; 0xb3; 0x02;
   0x83; 0xe4; 0x88; 0x83; 0x25; 0x71; 0x41; 0x5a;
   0x08; 0x51; 0x25; 0xe8; 0xf7; 0xcd; 0xc9; 0x9f;
   0xd9; 0x1d; 0xbd; 0xf2; 0x80; 0x37; 0x3c; 0x5b;
   0xd8; 0x82; 0x3e; 0x31; 0x56; 0x34; 0x8f; 0x5b;
   0xae; 0x6d; 0xac; 0xd4; 0x36; 0xc9; 0x19; 0xc6;
   0xdd; 0x53; 0xe2; 0xb4; 0x87; 0xda; 0x03; 0xfd;
   0x02; 0x39; 0x63; 0x06; 0xd2; 0x48; 0xcd; 0xa0;
   0xe9; 0x9f; 0x33; 0x42; 0x0f; 0x57; 0x7e; 0xe8;
   0xce; 0x54; 0xb6; 0x70; 0x80; 0xa8; 0x0d; 0x1e;
   0xc6; 0x98; 0x21; 0xbc; 0xb6; 0xa8; 0x83; 0x93;
   0x96; 0xf9; 0x65; 0x2b; 0x6f; 0xf7; 0x2a; 0x70].

Definition collisionNameB : string :=
  string_of_bytes
  [
   0x2f; 0xca; 0xb5; 0x07; 0x12; 0x46; 0x7e; 0xab;
   0x40; 0x04; 0x58; 0x3e; 0xb8; 0xfb; 0x7f; 0x89;
   0x55; 0xad; 0x34; 0x06; 0x09; 0xf4; 0xb3; 0x02;
   0x83; 0xe4; 0x88; 0x83; 0x25; 0xf1; 0x41; 0x5a;
   0x08; 0x51; 0x25; 0xe8; 0xf7; 0xcd; 0xc9; 0x9f;
   0xd9; 0x1d; 0xbd; 0x72; 0x80; 0x37; 0x3c; 0x5b;
   0xd8; 0x82; 0x3e; 0x31; 0x56; 0x34; 0x8f; 0x5b;
   0xae; 0x6d; 0xac; 0xd4; 0x36; 0xc9; 0x19; 0xc6;
   0xdd; 0x53; 0xe2; 0x34; 0x87; 0xda; 0x03; 0xfd;
   0x02; 0x39; 0x63; 0x06; 0xd2; 0x48; 0xcd; 0xa0;
   0xe9; 0x9f; 0x33; 0x42; 0x0f; 0x57; 0x7e; 0xe8;
   0xce; 0x54; 0xb6; 0x70; 0x80; 0x28; 0x0d; 0x1e;
   0xc6; 0x98; 0x21; 0xbc; 0xb6; 0xa8; 0x83; 0x93;
   0x96; 0xf9; 0x65; 0xab; 0x6f; 0xf7; 0x2a; 0x70].

(** The first 16 bytes [d] of a digest with the version nibble [v] and the
    variant bits 10 written over them. *)
Definition Stamped (v : Z) (d : list Z) (u : UUID) : Prop :=
  exists d0 d1 d2 d3 d4 d5 d6 d7 d8 d9 d10 d11 d12 d13 d14 d15 : Z,
    d = [d0; d1; d2; d3; d4; d5; d6; d7; d8; d9; d10; d11; d12; d13; d14; d15]
    /\ u = [d0; d1; d2; d3; d4; d5; 16 * v + d6 mod 2 ^ 4; d7;
            0x80 + d8 mod 2 ^ 6; d9; d10; d11; d12; d13; d14; d15].

(** The first eight bytes of a batch identifier, as [newMonotonicV7] writes
    them from the millisecond timestamp and the counter. *)
Definition v7Prefix (ms c : Z) : list Z :=
  [uint8 (Z.shiftr ms 40); uint8 (Z.shiftr ms 32); uint8 (Z.shiftr ms 24);
   uint8 (Z.shiftr ms 16); uint8 (Z.shiftr ms 8); uint8 ms;
   Z.lor (Z.land (uint8 (Z.shiftr c 8)) 15) (uint8 (Z.shiftl V7 4)); uint8 c].

(** The counter the next batch entry gets when its timestamp is [ms]. *)
Definition nextCounter (g : MonotonicGen) (ms : Z) : Z :=
  if ms <=? lastTime (embedded g) then uint16 (monotonicCounter g + 1) else 0.

(** The next [n] calls of the epoch source all fall in millisecond [ms]. *)
Definition sameMillisecond (n : nat) (g : MonotonicGen) (ms : Z) : Prop :=
  forall k, (k < n)%nat ->
    uint64 (UnixMilli (clock (epochFunc (embedded g))
                             (ticks (epochFunc (embedded g)) + k))) = ms.

(** The random source delivers the [8 * n] bytes that [n] entries need. *)
Definition randomAvailable (n : nat) (g : MonotonicGen) : Prop :=
  forall i, (pos (rand (embedded g)) <= i < pos (rand (embedded g)) + 8 * n)%nat ->
    exists x, script (rand (embedded g)) i = inl x.

(** The version-1 layout of a timestamp [t], a clock sequence [c] and a
    node address [h]. *)
Definition V1Layout (t c : Z) (h : list Z) (u : UUID) : Prop :=
  exists h0 h1 h2 h3 h4 h5 : Z,
    h = [h0; h1; h2; h3; h4; h5]
    /\ u = [ (t / 2 ^ 24) mod 2 ^ 8; (t / 2 ^ 16) mod 2 ^ 8;
             (t / 2 ^ 8) mod 2 ^ 8; t mod 2 ^ 8;
             (t / 2 ^ 40) mod 2 ^ 8; (t / 2 ^ 32) mod 2 ^ 8;
             0x10 + (t / 2 ^ 56) mod 2 ^ 4; (t / 2 ^ 48) mod 2 ^ 8;
             0x80 + (c / 2 ^ 8) mod 2 ^ 6; c mod 2 ^ 8;
             h0; h1; h2; h3; h4; h5 ].

(** The version-7 layout of a millisecond timestamp [ms], a clock sequence
    [c] and eight random bytes [r]. *)
Definition V7Layout (ms c : Z) (r : list Z) (u : UUID) : Prop :=
  exists r0 r1 r2 r3 r4 r5 r6 r7 : Z,
    r = [r0; r1; r2; r3; r4; r5; r6; r7]
    /\ u = [ (ms / 2 ^ 40) mod 2 ^ 8; (ms / 2 ^ 32) mod 2 ^ 8;
             (ms / 2 ^ 24) mod 2 ^ 8; (ms / 2 ^ 16) mod 2 ^ 8;
             (ms / 2 ^ 8) mod 2 ^ 8; ms mod 2 ^ 8;
             0x70 + (c / 2 ^ 8) mod 2 ^ 4; c mod 2 ^ 8;
             0x80 + r0 mod 2 ^ 6; r1; r2; r3; r4; r5; r6; r7 ].

(** An identifier of 16 bytes whose version nibble is [v] and whose
    variant bits are 10. *)
Definition hasVersion (v : Z) (u : UUID) : Prop :=
  length u = 16%nat /\ nth 6 u 0 / 16 = v /\ nth 8 u 0 / 64 = 2.

(** [n] calls of [newMonotonicV7] one after the other, collecting the
    identifiers and stopping at the first error. *)
Fixpoint issueV7 (n : nat) : M MonotonicGen (list UUID) :=
  match n with
  | O => ret []
  | S n' =>
      u <- newMonotonicV7 ;;
      us <- issueV7 n' ;;
      ret (u :: us)
  end.

(** A series of tracker calls each of whose timestamps is greater than the
    one before it, the first being greater than [last]. *)
Fixpoint advancing (last : Z) (calls : list (bool * Time)) : Prop :=
  match calls with
  | [] => True
  | (useUnixTSMs, atTime) :: rest =>
      last < timestamp useUnixTSMs atTime
      /\ advancing (timestamp useUnixTSMs atTime) rest
  end.

(** The options the package itself provides. *)
Inductive builtinOption : GenOption -> Prop :=
  | builtin_hwaf (hwaf : option HWAddrFunc) : builtinOption (WithHWAddrFunc hwaf)
  | builtin_epoch (epochf : option EpochFunc) : builtinOption (WithEpochFunc epochf)
  | builtin_reader (reader : option Reader) : builtinOption (WithRandomReader reader).

(** The state every new generator starts from, whatever its collaborators. *)
Definition freshState (g : Gen) : Prop :=
  clockSequenceOnce g = false
  /\ hardwareAddrOnce g = false
  /\ lastTime g = 0
  /\ clockSequence g = 0
  /\ hardwareAddr g = [0; 0; 0; 0; 0; 0].

(** ** Further fixtures *)

(** The identifier of a result, [Nil] for an error as in the Go code. *)
Definition valueOf (r : result UUID) : UUID :=
  match r with Ok u => u | Err _ => Nil end.

(** The identifiers of a batch result, none for an error. *)
Definition listOf (r : result (list UUID)) : list UUID :=
  match r with Ok us => us | Err _ => [] end.

Definition epoch2023 : Time := mkTime 1700000000 0.

(** A reader that delivers 19 zero bytes and then reports the end. *)
Definition nineteenBytes : Reader :=
  mkReader (fun i => if (i <? 19)%nat then inl 0 else inr EOF) 0.

(** A hardware-address function that returns a seven-byte address. *)
Definition sevenByteNode : HWAddrFunc :=
  mkHWAddrFunc (fun _ => Ok [0xde; 0xad; 0xbe; 0xef; 0x00; 0x01; 0x99]) 0.


(** * Properties *)

(** ** Sanity checks of the embedding against known values *)

Example md5_empty : hex (MD5.sum []) = "d41d8cd98f00b204e9800998ecf8427e"%string.
Proof. vm_compute. reflexivity. Qed.

Example md5_fox :
  hex (MD5.sum (bytes_of_string "The quick brown fox jumps over the lazy dog"))
  = "9e107d9d372bb6826bd81d3542a419d6"%string.
Proof. vm_compute. reflexivity. Qed.

Example sha1_fox :
  hex (SHA1.sum (bytes_of_string "The quick brown fox jumps over the lazy dog"))
  = "2fd4e1c67a2d28fced849ee1bb76e7391b93eb12"%string.
Proof. vm_compute. reflexivity. Qed.

Example sha1_two_blocks :
  hex (SHA1.sum (replicate 200 97)) = "e61cfffe0d9195a525fc6cf06ca2d77119c24a40"%string.
Proof. vm_compute. reflexivity. Qed.

Example v3_example :
  hex (NewV3 (NewGen stubDefaults) NamespaceDNS "www.example.com")
  = "5df418813aed351588a72f4a814cf09e"%string.
Proof. vm_compute. reflexivity. Qed.

Example v5_example :
  hex (NewV5 (NewGen stubDefaults) NamespaceDNS "www.example.com")
  = "2ed6657de927568b95e12665a8aea6a2"%string.
Proof. vm_compute. reflexivity. Qed.

Example v7_batch_of_three :
  fst (GenerateBatchV7 3 (NewMonotonicGen stubDefaults []))
  = Ok [[1; 139; 207; 229; 104; 0; 112; 0; 128; 0; 0; 0; 0; 0; 0; 0];
        [1; 139; 207; 229; 104; 0; 112; 1; 128; 0; 0; 0; 0; 0; 0; 0];
        [1; 139; 207; 229; 104; 0; 112; 2; 128; 0; 0; 0; 0; 0; 0; 0]].
Proof. vm_compute. reflexivity. Qed.

(** ** The reader *)

Lemma fill_length src p first buf :
  length (fill src p first buf).1.1 = length buf.
Proof.
  revert p first. induction buf as [|b rest IH]; intros p first; simpl; [done|].
  destruct (src p) as [x|e]; [|done].
  specialize (IH (S p) false).
  destruct (fill src (S p) false rest) as [[rest' p'] e']. simpl in *. by rewrite IH.
Qed.

(** A read that succeeds delivers exactly the next bytes of the script and
    advances the reader by the size of the buffer. *)
Lemma fill_Ok src p first buf buf' p' :
  fill src p first buf = (buf', p', None) ->
  buf' = bytesAt src p (length buf) /\ p' = (p + length buf)%nat.
Proof.
  revert p first buf' p'. induction buf as [|b rest IH]; intros p first buf' p' H; simpl in *.
  - inversion H; subst. split; [done | lia].
  - unfold bytesAt, byteAt in *. simpl.
    destruct (src p) as [x|e] eqn:Hsrc; [|discriminate].
    destruct (fill src (S p) false rest) as [[rest' q] e'] eqn:Hfill.
    inversion H; subst. destruct (IH _ _ _ _ Hfill) as [-> ->].
    split; [done | lia].
Qed.

(** A read over a stretch of the script without failures succeeds. *)
Lemma fill_total src p first buf :
  (forall i, (p <= i < p + length buf)%nat -> exists x, src i = inl x) ->
  fill src p first buf = (bytesAt src p (length buf), (p + length buf)%nat, None).
Proof.
  revert p first. induction buf as [|b rest IH]; intros p first H; simpl in *.
  - unfold bytesAt. simpl. do 2 f_equal. lia.
  - destruct (H p ltac:(lia)) as [x Hx]. rewrite Hx.
    rewrite IH by (intros i Hi; apply H; lia).
    unfold bytesAt, byteAt. simpl. rewrite Hx. do 2 f_equal. lia.
Qed.

Lemma ReadFull_Ok r buf buf' r' :
  ReadFull r buf = (buf', r', None) ->
  buf' = bytesAt (script r) (pos r) (length buf)
  /\ r' = mkReader (script r) (pos r + length buf).
Proof.
  unfold ReadFull. destruct (fill (script r) (pos r) true buf) as [[b q] e] eqn:Hfill.
  intros H; inversion H; subst.
  destruct (fill_Ok _ _ _ _ _ _ Hfill) as [-> ->]. done.
Qed.

(** ** Batch-size validation *)

(** C7. For every count <= 0, [GenerateBatchV7] fails at once with the
    batch-size error, returns no identifiers, and leaves the generator,
    its monotonic counter included, exactly as it was. *)
Theorem GenerateBatchV7_rejects_nonpositive (g : MonotonicGen) (count : Z) :
  count <= 0 ->
  GenerateBatchV7 count g
  = (Err (errorString "batch size must be greater than zero"), g).
Proof.
  intros Hle. unfold GenerateBatchV7.
  destruct (Z.leb_spec count 0) as [_|Hgt]; [reflexivity | lia].
Qed.

Lemma GenerateBatchV7_rejects_nonpositive_witness :
  GenerateBatchV7 (-5) (NewMonotonicGen stubDefaults [])
  = (Err (errorString "batch size must be greater than zero"),
     NewMonotonicGen stubDefaults []).
Proof.
  apply (GenerateBatchV7_rejects_nonpositive (NewMonotonicGen stubDefaults []) (-5)).
  lia.
Defined.

(** ** Version 4 on an all-zero random source *)

(** C9. When the random source only ever delivers zero bytes, [NewV4]
    succeeds and returns 00000000-0000-4000-8000-000000000000: every byte
    zero except byte 6 = 0x40 and byte 8 = 0x80.  The call consumes 16 bytes
    of the reader and changes nothing else. *)
Theorem NewV4_all_zero (g : Gen) :
  (forall i, script (rand g) i = inl 0) ->
  NewV4 g
  = (Ok [0; 0; 0; 0; 0; 0; 0x40; 0; 0x80; 0; 0; 0; 0; 0; 0; 0],
     set_rand (mkReader (script (rand g)) (pos (rand g) + 16)) g).
Proof.
  intros Hzero. unfold NewV4, bind, readRand, ReadFull.
  rewrite fill_total by (intros i _; eauto).
  unfold bytesAt, byteAt, Nil. simpl. rewrite !Hzero. reflexivity.
Qed.

Lemma NewV4_all_zero_witness :
  NewV4 (NewGen stubDefaults)
  = (Ok [0; 0; 0; 0; 0; 0; 0x40; 0; 0x80; 0; 0; 0; 0; 0; 0; 0],
     set_rand (mkReader (fun _ => inl 0) 16) (NewGen stubDefaults)).
Proof.
  apply (NewV4_all_zero (NewGen stubDefaults)).
  intros i. reflexivity.
Defined.

(** ** The monotonic counter *)

(** C4. [getMonotonicClockSequence] always returns without error.  With ts
    the timestamp computed from the flag and the time passed in: the stored
    last timestamp becomes ts; the counter becomes 0 when ts is strictly
    greater than the stored last timestamp and is incremented by one modulo
    2^16 otherwise; the returned pair is (ts, new counter).  Nothing else
    of the generator changes, the random reader in particular is not read.
    The last timestamp is the [lastTime] field of the embedded [Gen]. *)
Theorem getMonotonicClockSequence_rule
  (useUnixTSMs : bool) (atTime : Time) (g : MonotonicGen) :
  let ts := timestamp useUnixTSMs atTime in
  exists c : Z,
    getMonotonicClockSequence useUnixTSMs atTime g
    = (Ok (ts, c), mkMonotonicGen (set_lastTime ts (embedded g)) c)
    /\ (lastTime (embedded g) < ts -> c = 0)
    /\ (ts <= lastTime (embedded g) -> c = (monotonicCounter g + 1) mod 2 ^ 16).
Proof.
  intros ts. unfold getMonotonicClockSequence. fold ts.
  destruct (Z.leb_spec ts (lastTime (embedded g))) as [Hle|Hgt].
  - exists (uint16 (monotonicCounter g + 1)).
    split; [reflexivity | split; [lia | reflexivity]].
  - exists 0. split; [reflexivity | split; [reflexivity | lia]].
Qed.

Lemma getMonotonicClockSequence_rule_witness :
  let g := NewMonotonicGen stubDefaults [] in
  let t := mkTime 1700000000 0 in
  let g1 := (getMonotonicClockSequence true t g).2 in
  (exists c : Z,
     getMonotonicClockSequence true t g
     = (Ok (timestamp true t, c),
        mkMonotonicGen (set_lastTime (timestamp true t) (embedded g)) c)
     /\ c = 0)
  /\ (exists c : Z,
        getMonotonicClockSequence true t g1
        = (Ok (timestamp true t, c),
           mkMonotonicGen (set_lastTime (timestamp true t) (embedded g1)) c)
        /\ c = (monotonicCounter g1 + 1) mod 2 ^ 16).
Proof.
  intros g t g1. split.
  - destruct (getMonotonicClockSequence_rule true t g) as (c & Hcall & Hreset & _).
    exists c. split; [exact Hcall|]. apply Hreset. reflexivity.
  - destruct (getMonotonicClockSequence_rule true t g1) as (c & Hcall & _ & Hinc).
    exists c. split; [exact Hcall|]. apply Hinc. vm_compute. discriminate.
Defined.

(** ** The clock-sequence tracker *)

Lemma seedClockSequence_done (g : Gen) :
  clockSequenceOnce g = true -> seedClockSequence g = (Ok tt, g).
Proof. intros H. unfold seedClockSequence. by rewrite H. Qed.

(** After a seeding step that succeeds the once-flag is set, the clock
    sequence is the stored one or the fresh seed, and the last timestamp is
    the one stored before. *)
Lemma seedClockSequence_Ok (g g' : Gen) :
  seedClockSequence g = (Ok tt, g') ->
  clockSequenceOnce g' = true
  /\ clockSequence g' = seededClockSequence g
  /\ lastTime g' = lastTime g.
Proof.
  unfold seedClockSequence, seededClockSequence, nextRandom.
  destruct (clockSequenceOnce g) eqn:Honce.
  - intros H; inversion H; subst. done.
  - destruct (ReadFull (rand g) [0; 0]) as [[buf r] e] eqn:Hread.
    destruct e as [err|]; [discriminate|].
    intros H; inversion H; subst; clear H.
    destruct (ReadFull_Ok _ _ _ _ Hread) as [-> _]. done.
Qed.

(** The tracker's step once the seeding is out of the way. *)
Lemma getClockSequence_seeded (useUnixTSMs : bool) (atTime : Time) (g : Gen) :
  clockSequenceOnce g = true ->
  let ts := timestamp useUnixTSMs atTime in
  let cs := if ts <=? lastTime g then uint16 (clockSequence g + 1)
            else clockSequence g in
  getClockSequence useUnixTSMs atTime g
  = (Ok (ts, cs), set_lastTime ts (set_clockSequence cs g)).
Proof.
  intros Honce ts cs. unfold getClockSequence, bind.
  rewrite seedClockSequence_done by done. fold ts. subst cs.
  destruct (ts <=? lastTime g); [reflexivity|].
  by destruct g.
Qed.

(** A successful call went through a successful seeding step and then
    applied the update to the seeded state. *)
Lemma getClockSequence_Ok_inv
  (useUnixTSMs : bool) (atTime : Time) (g g' : Gen) (ts cs : Z) :
  getClockSequence useUnixTSMs atTime g = (Ok (ts, cs), g') ->
  exists g1 : Gen,
    seedClockSequence g = (Ok tt, g1)
    /\ ts = timestamp useUnixTSMs atTime
    /\ cs = (if ts <=? lastTime g then uint16 (seededClockSequence g + 1)
             else seededClockSequence g)
    /\ g' = set_lastTime ts (set_clockSequence cs g1).
Proof.
  unfold getClockSequence at 1. unfold bind.
  destruct (seedClockSequence g) as [[[]|e] g1] eqn:Hseed; [|discriminate].
  destruct (seedClockSequence_Ok _ _ Hseed) as (Honce & Hcs & Hlast).
  set (t := timestamp useUnixTSMs atTime). cbv beta zeta.
  rewrite Hlast. intros H. exists g1.
  destruct (t <=? lastTime g) eqn:Hcmp; inversion H; subst ts cs g'; clear H;
    simpl; rewrite Hcmp, <- Hcs; repeat split; try reflexivity.
Qed.

(** C3. For every successful call of [getClockSequence], with ts the
    timestamp computed from the flag and the time passed in, and starting
    from the clock sequence as it stands after the one-time seeding: when
    ts <= the stored last timestamp the 16-bit clock sequence is incremented
    by exactly one modulo 2^16, otherwise it is left unchanged; in both
    cases the last timestamp becomes ts, and the call returns ts and the
    new clock sequence.  Consequently a second call at the same instant
    succeeds and returns a clock sequence exactly one greater modulo 2^16. *)
Theorem getClockSequence_update_rule
  (useUnixTSMs : bool) (atTime : Time) (g g' : Gen) (ts cs : Z) :
  getClockSequence useUnixTSMs atTime g = (Ok (ts, cs), g') ->
  ts = timestamp useUnixTSMs atTime
  /\ lastTime g' = ts
  /\ clockSequence g' = cs
  /\ (ts <= lastTime g -> cs = (seededClockSequence g + 1) mod 2 ^ 16)
  /\ (lastTime g < ts -> cs = seededClockSequence g)
  /\ exists g'' : Gen,
       getClockSequence useUnixTSMs atTime g'
       = (Ok (ts, (cs + 1) mod 2 ^ 16), g'').
Proof.
  intros Hcall.
  destruct (getClockSequence_Ok_inv _ _ _ _ _ _ Hcall) as (g1 & Hseed & Hts & Hcs & Hg').
  destruct (seedClockSequence_Ok _ _ Hseed) as (Honce & _ & _).
  split; [exact Hts|]. split; [by subst g'|]. split; [by subst g'|].
  split; [|split].
  - intros Hle. rewrite Hcs. by destruct (Z.leb_spec ts (lastTime g)); [|lia].
  - intros Hgt. rewrite Hcs. by destruct (Z.leb_spec ts (lastTime g)); [lia|].
  - eexists. rewrite getClockSequence_seeded by (by subst g').
    rewrite <- Hts. subst g'. simpl. rewrite Z.leb_refl. reflexivity.
Qed.

Lemma getClockSequence_update_rule_witness :
  let g := NewGen stubDefaults in
  let t := mkTime 1700000000 0 in
  let g' := (getClockSequence true t g).2 in
  1700000000000 = timestamp true t
  /\ lastTime g' = 1700000000000
  /\ clockSequence g' = 0
  /\ (1700000000000 <= lastTime g -> 0 = (seededClockSequence g + 1) mod 2 ^ 16)
  /\ (lastTime g < 1700000000000 -> 0 = seededClockSequence g)
  /\ exists g'' : Gen,
       getClockSequence true t g' = (Ok (1700000000000, (0 + 1) mod 2 ^ 16), g'').
Proof.
  intros g t g'.
  apply (getClockSequence_update_rule true t g g' 1700000000000 0).
  reflexivity.
Defined.

(** ** What the batch counter shares with the tracker *)

Lemma sameSequenceState_refl (g : Gen) : sameSequenceState g g.
Proof. by unfold sameSequenceState. Qed.

Lemma sameSequenceState_trans (g1 g2 g3 : Gen) :
  sameSequenceState g1 g2 -> sameSequenceState g2 g3 -> sameSequenceState g1 g3.
Proof.
  unfold sameSequenceState. intros (-> & -> & -> & ->) (-> & -> & -> & ->). done.
Qed.

Lemma newMonotonicV7_frame (g : MonotonicGen) :
  sameSequenceState (embedded g) (embedded (newMonotonicV7 g).2).
Proof.
  unfold newMonotonicV7, bind, promoted, callEpochFunc, getMonotonicClockSequence,
    readRand. simpl.
  match goal with |- context [ReadFull ?r ?b] => destruct (ReadFull r b) as [[buf r'] [e|]] end;
    simpl; destruct (_ <=? _); by unfold sameSequenceState.
Qed.

Lemma batchLoop_frame (n i : nat) (uuids : list UUID) (g : MonotonicGen) :
  sameSequenceState (embedded g) (embedded (batchLoop n i uuids g).2).
Proof.
  revert i uuids g. induction n as [|n IH]; intros i uuids g; simpl.
  - apply sameSequenceState_refl.
  - unfold bind. pose proof (newMonotonicV7_frame g) as Hstep.
    destruct (newMonotonicV7 g) as [[u|e] g1]; simpl in *; [|done].
    eapply sameSequenceState_trans; [exact Hstep | apply IH].
Qed.

(** C2, refuted as stated.  On a fresh batch generator with the clock
    stopped at 2023-11-14T22:13:20Z: one batch call moves the [lastTime] of
    the embedded generator from 0 to that millisecond, so does one call of
    the counter; and a tracker call made between two batches changes what
    the second batch gets from the counter (it restarts at 0 instead of
    going on to 1), so neither state is independent of the other. *)
Lemma batch_and_tracker_share_lastTime :
  let g := NewMonotonicGen stubDefaults [] in
  let t := mkTime 1700000000 0 in
  lastTime (embedded (GenerateBatchV7 1 g).2) <> lastTime (embedded g)
  /\ lastTime (embedded (getMonotonicClockSequence true t g).2)
     <> lastTime (embedded g)
  /\ let g1 := (GenerateBatchV7 1 g).2 in
     let g2 := (promoted (getClockSequence true (mkTime 0 0)) g1).2 in
     (GenerateBatchV7 1 g1).1 <> (GenerateBatchV7 1 g2).1.
Proof. vm_compute. repeat split; discriminate. Qed.

(** C2, amended.  The batch counter adds only the counter to the generator
    and shares [lastTime] with the clock-sequence tracker.
    - A call of [getMonotonicClockSequence], and a whole [GenerateBatchV7],
      leave the clock sequence, its once-flag and the cached hardware
      address of the embedded generator unchanged; the counter call sets
      the shared [lastTime] to its timestamp.
    - A method of the embedded generator never changes the monotonic
      counter; a successful [getClockSequence] sets the shared [lastTime]
      to its timestamp. *)
Theorem counter_separate_lastTime_shared :
  (forall (useUnixTSMs : bool) (atTime : Time) (g : MonotonicGen),
     let g' := (getMonotonicClockSequence useUnixTSMs atTime g).2 in
     sameSequenceState (embedded g) (embedded g')
     /\ lastTime (embedded g') = timestamp useUnixTSMs atTime)
  /\ (forall (batchSize : Z) (g : MonotonicGen),
        sameSequenceState (embedded g) (embedded (GenerateBatchV7 batchSize g).2))
  /\ (forall (A : Type) (m : M Gen A) (g : MonotonicGen),
        monotonicCounter (promoted m g).2 = monotonicCounter g)
  /\ (forall (useUnixTSMs : bool) (atTime : Time) (g : MonotonicGen),
        let r := promoted (getClockSequence useUnixTSMs atTime) g in
        is_Ok r.1 = true ->
        lastTime (embedded r.2) = timestamp useUnixTSMs atTime).
Proof.
  split; [|split; [|split]].
  - intros useUnixTSMs atTime g. simpl. split; [|done].
    destruct (timestamp useUnixTSMs atTime <=? lastTime (embedded g));
      by unfold sameSequenceState.
  - intros batchSize g. unfold GenerateBatchV7.
    destruct (batchSize <=? 0); [apply sameSequenceState_refl | apply batchLoop_frame].
  - intros A m g. unfold promoted. by destruct (m (embedded g)).
  - intros useUnixTSMs atTime g. unfold promoted. simpl.
    destruct (getClockSequence useUnixTSMs atTime (embedded g)) as [[[ts cs]|e] g'] eqn:Hcall;
      simpl; [intros _ | discriminate].
    destruct (getClockSequence_Ok_inv _ _ _ _ _ _ Hcall) as (g1 & _ & -> & _ & ->). done.
Qed.

Lemma counter_separate_lastTime_shared_witness :
  let g := NewMonotonicGen stubDefaults [] in
  let t := mkTime 1700000000 0 in
  lastTime (embedded (promoted (getClockSequence true t) g).2) = timestamp true t.
Proof.
  intros g t.
  apply (proj2 (proj2 (proj2 counter_separate_lastTime_shared)) true t g).
  reflexivity.
Defined.

(** ** The cached hardware address *)

(** A read that fails has delivered the [k] bytes before the failing
    position and left the rest of the buffer alone. *)
Lemma fill_Err src p first buf buf' p' e :
  fill src p first buf = (buf', p', Some e) ->
  exists k : nat,
    (k < length buf)%nat
    /\ buf' = bytesAt src p k ++ drop k buf
    /\ p' = S (p + k)
    /\ exists e0, src (p + k)%nat = inr e0.
Proof.
  revert p first buf' p'. induction buf as [|b rest IH]; intros p first buf' p' H; simpl in *.
  - discriminate.
  - destruct (src p) as [x|e0] eqn:Hsrc.
    + destruct (fill src (S p) false rest) as [[rest' q] e'] eqn:Hfill.
      inversion H; subst; clear H. destruct (IH _ _ _ _ Hfill) as (k & Hk & -> & -> & e0 & He0).
      exists (S k). split; [lia|]. split.
      * unfold bytesAt, byteAt. simpl. by rewrite Hsrc.
      * split; [lia|]. exists e0. by replace (p + S k)%nat with (S p + k)%nat by lia.
    + inversion H; subst; clear H. exists 0%nat. split; [lia|].
      split; [done|]. split; [lia|]. exists e0. by rewrite Nat.add_0_r.
Qed.

Lemma testbit_lor_1 (x : Z) : Z.testbit (Z.lor x 1) 0 = true.
Proof. rewrite Z.lor_spec. apply orb_true_r. Qed.

Lemma resolveHardwareAddr_done (g : Gen) :
  hardwareAddrOnce g = true -> resolveHardwareAddr g = (Ok tt, g).
Proof. intros H. unfold resolveHardwareAddr. by rewrite H. Qed.

(** Once the address is resolved, every call returns the cached bytes and
    leaves the generator as it is, whatever its hardware-address function. *)
Lemma getHardwareAddr_cached (g : Gen) :
  hardwareAddrOnce g = true -> getHardwareAddr g = (Ok (hardwareAddr g), g).
Proof.
  intros H. unfold getHardwareAddr, bind. by rewrite resolveHardwareAddr_done.
Qed.

(** C5. On the first resolution, when the hardware-address source fails and
    the random source delivers six bytes r0..r5: the call returns
    r0|1, r1, ..., r5 (the least-significant bit of byte 0 set), caches
    that value and marks the address resolved.  From then on every call
    returns the cached six bytes and changes nothing, also after the
    hardware-address function has been replaced by any other. *)
Theorem getHardwareAddr_fallback_cached (g : Gen) (e : error) :
  hardwareAddrOnce g = false ->
  length (hardwareAddr g) = 6%nat ->
  hwsrc (hwAddrFunc g) (hwcalls (hwAddrFunc g)) = Err e ->
  (forall i, (pos (rand g) <= i < pos (rand g) + 6)%nat ->
             exists x, script (rand g) i = inl x) ->
  exists (r0 r1 r2 r3 r4 r5 : Z) (g' : Gen),
    nextRandom g 6 = [r0; r1; r2; r3; r4; r5]
    /\ getHardwareAddr g = (Ok [Z.lor r0 1; r1; r2; r3; r4; r5], g')
    /\ Z.testbit (Z.lor r0 1) 0 = true
    /\ hardwareAddr g' = [Z.lor r0 1; r1; r2; r3; r4; r5]
    /\ hardwareAddrOnce g' = true
    /\ forall hwaf : HWAddrFunc,
         getHardwareAddr (set_hwAddrFunc hwaf g')
         = (Ok [Z.lor r0 1; r1; r2; r3; r4; r5], set_hwAddrFunc hwaf g').
Proof.
  intros Honce Hlen Hsrc Hrand.
  unfold getHardwareAddr at 1. unfold bind, resolveHardwareAddr, ReadFull.
  rewrite Honce, Hsrc. simpl.
  rewrite fill_total by (rewrite Hlen; exact Hrand). rewrite Hlen.
  unfold nextRandom, bytesAt. simpl.
  do 6 eexists. eexists. split; [reflexivity|]. split; [reflexivity|].
  split.
  - apply testbit_lor_1.
  - split; [reflexivity|]. split; [reflexivity|].
    intros hwaf. by rewrite getHardwareAddr_cached.
Qed.

Lemma getHardwareAddr_fallback_cached_witness :
  let g := NewGenWithOptions stubDefaults [WithHWAddrFunc (Some noHardware)] in
  exists (r0 r1 r2 r3 r4 r5 : Z) (g' : Gen),
    nextRandom g 6 = [r0; r1; r2; r3; r4; r5]
    /\ getHardwareAddr g = (Ok [Z.lor r0 1; r1; r2; r3; r4; r5], g')
    /\ Z.testbit (Z.lor r0 1) 0 = true
    /\ hardwareAddr g' = [Z.lor r0 1; r1; r2; r3; r4; r5]
    /\ hardwareAddrOnce g' = true
    /\ forall hwaf : HWAddrFunc,
         getHardwareAddr (set_hwAddrFunc hwaf g')
         = (Ok [Z.lor r0 1; r1; r2; r3; r4; r5], set_hwAddrFunc hwaf g').
Proof.
  intros g.
  apply (getHardwareAddr_fallback_cached g ErrNoHwAddressFound).
  - reflexivity.
  - reflexivity.
  - reflexivity.
  - intros i _. exists 0. reflexivity.
Defined.

(** ** One-time initialisation that failed *)

(** Once the once-flag is set, any series of tracker calls succeeds and
    never reads the random source. *)
Lemma trackerCalls_seeded (calls : list (bool * Time)) (g : Gen) :
  clockSequenceOnce g = true ->
  exists (results : list (Z * Z)) (g' : Gen),
    trackerCalls calls g = (Ok results, g')
    /\ length results = length calls
    /\ rand g' = rand g
    /\ clockSequenceOnce g' = true.
Proof.
  revert g. induction calls as [|[useUnixTSMs atTime] rest IH]; intros g Honce; simpl.
  - by exists [], g.
  - unfold bind. rewrite getClockSequence_seeded by done.
    match goal with |- context [trackerCalls rest ?s] =>
      destruct (IH s) as (rs & g' & Hrest & Hlen & Hrand & Honce'); [done|] end.
    rewrite Hrest. eexists _, g'. split; [reflexivity|].
    split; [simpl; by rewrite Hlen|]. split; [by rewrite Hrand|done].
Qed.

(** C10. A one-time initialisation that failed is not retried.
    - Clock sequence: when the random read of the first [getClockSequence]
      call fails with e, the call returns e, the once-flag is consumed and
      the clock sequence keeps its unseeded value 0; every later series of
      calls then succeeds without reading the random source, the next call
      returning 0, or 1 when its timestamp does not exceed the stored one.
    - Hardware address: when the hardware-address source fails and the
      random fallback fails with e after k < 6 bytes, the call returns e,
      the once-flag is consumed and the cache holds those k random bytes
      followed by its old contents; every later call returns this cache
      without error and changes nothing. *)
Theorem failed_initialisation_not_retried :
  (forall (g : Gen) (useUnixTSMs : bool) (atTime : Time) (e : error),
     clockSequenceOnce g = false ->
     clockSequence g = 0 ->
     (ReadFull (rand g) [0; 0]).2 = Some e ->
     exists g1 : Gen,
       getClockSequence useUnixTSMs atTime g = (Err e, g1)
       /\ clockSequenceOnce g1 = true
       /\ clockSequence g1 = 0
       /\ lastTime g1 = lastTime g
       /\ (forall (useUnixTSMs' : bool) (atTime' : Time),
             let ts := timestamp useUnixTSMs' atTime' in
             exists g2 : Gen,
               getClockSequence useUnixTSMs' atTime' g1
               = (Ok (ts, if ts <=? lastTime g then 1 else 0), g2))
       /\ (forall calls : list (bool * Time),
             exists (results : list (Z * Z)) (g2 : Gen),
               trackerCalls calls g1 = (Ok results, g2)
               /\ length results = length calls
               /\ rand g2 = rand g1))
  /\ (forall (g : Gen) (e0 e : error),
        hardwareAddrOnce g = false ->
        hwsrc (hwAddrFunc g) (hwcalls (hwAddrFunc g)) = Err e0 ->
        (ReadFull (rand g) (hardwareAddr g)).2 = Some e ->
        exists (g1 : Gen) (k : nat),
          getHardwareAddr g = (Err e, g1)
          /\ hardwareAddrOnce g1 = true
          /\ (k < length (hardwareAddr g))%nat
          /\ hardwareAddr g1 = nextRandom g k ++ drop k (hardwareAddr g)
          /\ getHardwareAddr g1 = (Ok (hardwareAddr g1), g1)).
Proof.
  split.
  - intros g useUnixTSMs atTime e Honce Hzero Hread.
    unfold getClockSequence at 1. unfold bind, seedClockSequence. rewrite Honce.
    destruct (ReadFull (rand g) [0; 0]) as [[buf r] e'] eqn:Hfull.
    simpl in Hread. subst e'.
    eexists. split; [reflexivity|]. simpl.
    split; [done|]. split; [done|]. split; [done|]. split.
    + intros useUnixTSMs' atTime'.
      destruct (timestamp useUnixTSMs' atTime' <=? lastTime g) eqn:Hcmp;
        eexists; rewrite getClockSequence_seeded by done; simpl;
        rewrite Hzero, Hcmp; reflexivity.
    + intros calls.
      match goal with |- context [trackerCalls calls ?s] =>
        destruct (trackerCalls_seeded calls s) as (rs & g2 & H1 & H2 & H3 & _);
          [done|] end.
      by exists rs, g2.
  - intros g e0 e Honce Hsrc Hread.
    unfold getHardwareAddr at 1. unfold bind, resolveHardwareAddr. rewrite Honce, Hsrc.
    simpl in *. unfold ReadFull in *.
    destruct (fill (script (rand g)) (pos (rand g)) true (hardwareAddr g))
      as [[buf q] e'] eqn:Hfill.
    simpl in Hread. subst e'.
    destruct (fill_Err _ _ _ _ _ _ _ Hfill) as (k & Hk & -> & -> & _).
    eexists _, k. split; [reflexivity|]. simpl.
    split; [done|]. split; [done|]. split; [done|].
    by rewrite getHardwareAddr_cached.
Qed.

Lemma failed_initialisation_not_retried_witness :
  let g := NewGenWithOptions stubDefaults [WithRandomReader (Some failingReader)] in
  let h := NewGenWithOptions stubDefaults
             [WithHWAddrFunc (Some noHardware); WithRandomReader (Some shortReader)] in
  (exists g1 : Gen,
     getClockSequence true (mkTime 1700000000 0) g = (Err EOF, g1)
     /\ clockSequenceOnce g1 = true
     /\ clockSequence g1 = 0
     /\ lastTime g1 = lastTime g
     /\ (forall (useUnixTSMs' : bool) (atTime' : Time),
           let ts := timestamp useUnixTSMs' atTime' in
           exists g2 : Gen,
             getClockSequence useUnixTSMs' atTime' g1
             = (Ok (ts, if ts <=? lastTime g then 1 else 0), g2))
     /\ (forall calls : list (bool * Time),
           exists (results : list (Z * Z)) (g2 : Gen),
             trackerCalls calls g1 = (Ok results, g2)
             /\ length results = length calls
             /\ rand g2 = rand g1))
  /\ (exists (h1 : Gen) (k : nat),
        getHardwareAddr h = (Err ErrUnexpectedEOF, h1)
        /\ hardwareAddrOnce h1 = true
        /\ (k < length (hardwareAddr h))%nat
        /\ hardwareAddr h1 = nextRandom h k ++ drop k (hardwareAddr h)
        /\ getHardwareAddr h1 = (Ok (hardwareAddr h1), h1)).
Proof.
  intros g h. split.
  - apply (proj1 failed_initialisation_not_retried g true (mkTime 1700000000 0) EOF);
      reflexivity.
  - apply (proj2 failed_initialisation_not_retried h ErrNoHwAddressFound ErrUnexpectedEOF);
      reflexivity.
Defined.

(** ** Bytes of a bit field *)

Ltac split_ltb :=
  repeat match goal with
         | |- context [?a <? ?b] => destruct (Z.ltb_spec a b); simpl
         end.

(** Byte [b/8] (counted from the low end) of the [w]-bit field of [x] that
    starts at bit [a] is the byte of [x] that starts at bit [a + b]. *)
Lemma field_byte (x a w b : Z) :
  0 <= a -> 0 <= b -> b + 8 <= w ->
  uint8 (Z.shiftr (Z.shiftr x a mod 2 ^ w) b) = (x / 2 ^ (a + b)) mod 2 ^ 8.
Proof.
  intros Ha Hb Hw. unfold uint8. rewrite <- (Z.shiftr_div_pow2 x (a + b)) by lia.
  apply Z.bits_inj'. intros i Hi.
  rewrite !Z.testbit_mod_pow2, !Z.shiftr_spec, Z.testbit_mod_pow2, Z.shiftr_spec by lia.
  split_ltb; try lia; try reflexivity. f_equal. lia.
Qed.

Lemma lor_disjoint (x y k : Z) :
  0 <= k -> 0 <= x < 2 ^ k -> y mod 2 ^ k = 0 -> Z.lor x y = y + x.
Proof.
  intros Hk Hx Hy.
  rewrite Z.add_comm, Z.add_nocarry_lxor, Z.lxor_lor; try reflexivity.
  all: apply Z.bits_inj'; intros i Hi; rewrite Z.land_spec, Z.bits_0.
  all: destruct (Z.lt_ge_cases i k) as [Hlt|Hge].
  all: try (replace (Z.testbit y i) with (Z.testbit (y mod 2 ^ k) i)
             by (rewrite Z.testbit_mod_pow2 by lia;
                 destruct (Z.ltb_spec i k); [reflexivity | lia]);
            rewrite Hy, Z.bits_0; apply andb_false_r).
  all: replace (Z.testbit x i) with (Z.testbit (x mod 2 ^ k) i)
         by (rewrite Z.mod_small by lia; reflexivity);
       rewrite Z.testbit_mod_pow2 by lia;
       destruct (Z.ltb_spec i k); [lia | reflexivity].
Qed.

Lemma NewV6AtTime_ignores_clockSequence (atTime : Time) (g : Gen) (cs : Z) :
  (NewV6AtTime atTime (set_clockSequence cs g)).1 = (NewV6AtTime atTime g).1.
Proof.
  unfold NewV6AtTime, bind, getClockSequence, bind, seedClockSequence, readRand.
  simpl. destruct (clockSequenceOnce g); simpl.
  - destruct (_ <=? _); simpl;
      match goal with |- context [ReadFull ?r ?b] =>
        destruct (ReadFull r b) as [[? ?] [?|]]; simpl end;
      reflexivity.
  - destruct (ReadFull (rand g) [0; 0]) as [[buf r] [e|]]; simpl; [reflexivity|].
    destruct (_ <=? _); simpl;
      match goal with |- context [ReadFull ?r ?b] =>
        destruct (ReadFull r b) as [[? ?] [?|]]; simpl end;
      reflexivity.
Qed.

Lemma version_byte (t : Z) :
  Z.lor (Z.land (uint8 (Z.shiftr (uint16 (Z.land t 0xfff)) 8)) 15) (uint8 (Z.shiftl V6 4))
  = 0x60 + (t / 2 ^ 8) mod 2 ^ 4.
Proof.
  change (uint8 (Z.shiftl V6 4)) with 0x60.
  change 15 with (Z.ones 4). change 0xfff with (Z.ones 12).
  rewrite !Z.land_ones by lia.
  assert (Hfield : uint8 (Z.shiftr (uint16 (t mod 2 ^ 12)) 8) mod 2 ^ 4
                   = (t / 2 ^ 8) mod 2 ^ 4).
  { unfold uint8, uint16. rewrite <- (Z.shiftr_div_pow2 t 8) by lia.
    apply Z.bits_inj'. intros i Hi.
    rewrite !Z.testbit_mod_pow2, !Z.shiftr_spec, !Z.testbit_mod_pow2 by lia.
    split_ltb; try lia; reflexivity. }
  rewrite Hfield. apply (lor_disjoint _ _ 4); [lia | | reflexivity].
  apply Z.mod_pos_bound. lia.
Qed.

Lemma low_byte (t : Z) : uint8 (uint16 (Z.land t 0xfff)) = t mod 2 ^ 8.
Proof.
  change 0xfff with (Z.ones 12). rewrite Z.land_ones by lia. unfold uint8, uint16.
  apply Z.bits_inj'. intros i Hi. rewrite !Z.testbit_mod_pow2 by lia.
  split_ltb; try lia; reflexivity.
Qed.

Lemma variant_byte (r : Z) : Z.lor (Z.land r 63) 128 = 0x80 + r mod 2 ^ 6.
Proof.
  change 63 with (Z.ones 6). rewrite Z.land_ones by lia.
  apply (lor_disjoint _ _ 6); [lia | | reflexivity].
  apply Z.mod_pos_bound. lia.
Qed.

Lemma NewV6AtTime_bytes (atTime : Time) (g g' : Gen) (u : UUID) :
  NewV6AtTime atTime g = (Ok u, g') ->
  V6Layout (getEpoch atTime)
           (nextRandom (getClockSequence false atTime g).2 8) u.
Proof.
  unfold NewV6AtTime, bind.
  destruct (getClockSequence false atTime g) as [[[ts cs]|e] g1] eqn:Hcall; [|discriminate].
  destruct (getClockSequence_Ok_inv _ _ _ _ _ _ Hcall) as (g0 & Hseed & Hts & _ & Hg1).
  simpl in Hts. unfold readRand.
  match goal with |- context [ReadFull ?r ?b] =>
      destruct (ReadFull r b) as [[tail r'] [e|]] eqn:Hread end; [discriminate|].
  apply ReadFull_Ok in Hread. destruct Hread as [-> ->].
  intros H. inversion H; subst u g'; clear H. rewrite <- Hts. clear Hts Hcall Hseed Hg1.
  unfold V6Layout, nextRandom. simpl snd.
  cbv [BigEndian_PutUint32 BigEndian_PutUint16 SetVersion SetVariantRFC9562 Nil
       replicate insert list_insert alter list_alter take firstn drop skipn app
       length bytesAt seq map].
  do 8 eexists. split; [reflexivity|].
  repeat match goal with |- _ :: _ = _ :: _ => f_equal end.
  - exact (field_byte ts 28 32 24 ltac:(lia) ltac:(lia) ltac:(lia)).
  - exact (field_byte ts 28 32 16 ltac:(lia) ltac:(lia) ltac:(lia)).
  - exact (field_byte ts 28 32 8 ltac:(lia) ltac:(lia) ltac:(lia)).
  - exact (field_byte ts 28 32 0 ltac:(lia) ltac:(lia) ltac:(lia)).
  - exact (field_byte ts 12 16 8 ltac:(lia) ltac:(lia) ltac:(lia)).
  - exact (field_byte ts 12 16 0 ltac:(lia) ltac:(lia) ltac:(lia)).
  - apply version_byte.
  - apply low_byte.
  - apply variant_byte.
Qed.

(** C6. For every successful [NewV6AtTime] call (and so for [NewV6], which
    calls it with the time of the epoch source), with t the count of 100 ns
    intervals since 1582-10-15 and r0..r7 the next eight bytes of the
    random source after the tracker's call: bytes 0-3 are bits 59-28 of t,
    bytes 4-5 bits 27-12, byte 6 is the version nibble 6 followed by bits
    11-8, byte 7 bits 7-0, byte 8 is the variant bits 10 followed by the
    low six bits of r0, and bytes 9-15 are r1..r7.  The clock sequence is
    not part of the result: the same call on a generator with any other
    stored clock sequence returns the same identifier. *)
Theorem NewV6_layout :
  (forall (atTime : Time) (g g' : Gen) (u : UUID),
     NewV6AtTime atTime g = (Ok u, g') ->
     V6Layout (getEpoch atTime)
              (nextRandom (getClockSequence false atTime g).2 8) u
     /\ forall cs : Z, (NewV6AtTime atTime (set_clockSequence cs g)).1 = Ok u)
  /\ (forall (g g' : Gen) (u : UUID),
        NewV6 g = (Ok u, g') ->
        let atTime := clock (epochFunc g) (ticks (epochFunc g)) in
        V6Layout (getEpoch atTime)
                 (nextRandom (getClockSequence false atTime (callEpochFunc g).2).2 8) u
        /\ forall cs : Z, (NewV6 (set_clockSequence cs g)).1 = Ok u).
Proof.
  split.
  - intros atTime g g' u Hcall. split.
    + eapply NewV6AtTime_bytes; exact Hcall.
    + intros cs. rewrite NewV6AtTime_ignores_clockSequence. by rewrite Hcall.
  - intros g g' u Hcall atTime. unfold NewV6, bind in *. simpl in *. split.
    + eapply NewV6AtTime_bytes; exact Hcall.
    + intros cs.
      match goal with |- (NewV6AtTime ?t ?s).1 = _ =>
        change s with (set_clockSequence cs
                         (set_epochFunc (mkEpochFunc (clock (epochFunc g))
                                           (S (ticks (epochFunc g)))) g)) end.
      rewrite NewV6AtTime_ignores_clockSequence. exact (f_equal fst Hcall).
Qed.

Lemma NewV6_layout_witness :
  let g := NewGen stubDefaults in
  let atTime := mkTime 1700000000 0 in
  V6Layout (getEpoch atTime) (nextRandom (getClockSequence false atTime g).2 8)
           [30; 232; 51; 176; 74; 252; 96; 0; 128; 0; 0; 0; 0; 0; 0; 0]
  /\ forall cs : Z,
       (NewV6AtTime atTime (set_clockSequence cs g)).1
       = Ok [30; 232; 51; 176; 74; 252; 96; 0; 128; 0; 0; 0; 0; 0; 0; 0].
Proof.
  intros g atTime.
  apply (proj1 NewV6_layout atTime g (NewV6AtTime atTime g).2).
  reflexivity.
Defined.

(** ** Hash-based versions *)

(** C8, refuted as stated.  Two distinct names with one namespace for which
    [NewV3] returns the same identifier, 79054025-255f-31a2-ae4b-c422aef54eb4. *)
Lemma NewV3_collision :
  collisionNameA <> collisionNameB
  /\ NewV3 (NewGen stubDefaults) collisionNamespace collisionNameA
     = NewV3 (NewGen stubDefaults) collisionNamespace collisionNameB.
Proof.
  split.
  - intros H. apply (f_equal (fun s => String.eqb s collisionNameB)) in H.
    vm_compute in H. discriminate.
  - vm_compute. reflexivity.
Qed.

Lemma le_bytes_length (k : nat) (x : Z) : length (le_bytes k x) = k.
Proof. revert x. induction k as [|k IH]; intros x; simpl; [done | by rewrite IH]. Qed.

Lemma be_bytes_length (k : nat) (x : Z) : length (be_bytes k x) = k.
Proof. unfold be_bytes. by rewrite length_rev, le_bytes_length. Qed.

Lemma MD5_sum_length (msg : list Z) : length (MD5.sum msg) = 16%nat.
Proof.
  unfold MD5.sum.
  destruct (fold_left MD5.block _ MD5.init) as [[[a b] c] d].
  by rewrite !length_app, !le_bytes_length.
Qed.

Lemma SHA1_sum_length (msg : list Z) : length (SHA1.sum msg) = 20%nat.
Proof.
  unfold SHA1.sum.
  destruct (fold_left SHA1.block _ SHA1.init) as [[[[a b] c] d] e].
  by rewrite !length_app, !be_bytes_length.
Qed.

Lemma version_nibble (v b : Z) :
  0 <= v < 16 ->
  Z.lor (Z.land b 15) (uint8 (Z.shiftl v 4)) = 16 * v + b mod 2 ^ 4.
Proof.
  intros Hv. change 15 with (Z.ones 4). rewrite Z.land_ones by lia.
  rewrite Z.shiftl_mul_pow2 by lia. unfold uint8.
  change (2 ^ 8) with 256. change (2 ^ 4) with 16.
  rewrite (Z.mod_small (v * 16)) by lia.
  rewrite (lor_disjoint _ _ 4); [lia | lia | |].
  - change (2 ^ 4) with 16. apply Z.mod_pos_bound. lia.
  - change (2 ^ 4) with 16. apply Z.mod_mul. lia.
Qed.

(** An identifier made from a digest of at least 16 bytes. *)
Lemma stamped_digest (v : Z) (d : list Z) :
  0 <= v < 16 -> (16 <= length d)%nat ->
  Stamped v (take 16 d) (SetVariantRFC9562 (SetVersion v (copy Nil d))).
Proof.
  intros Hv Hlen. unfold copy.
  rewrite (drop_ge Nil) by (simpl; lia). rewrite app_nil_r.
  change (length Nil) with 16%nat.
  do 16 (destruct d as [|? d]; [simpl in Hlen; lia|]).
  unfold Stamped. cbn [take firstn]. do 16 eexists. split; [reflexivity|].
  cbv [SetVersion SetVariantRFC9562 alter list_alter].
  repeat match goal with |- _ :: _ = _ :: _ => f_equal end.
  - by apply version_nibble.
  - apply variant_byte.
Qed.

(** C8, amended.  [NewV3] and [NewV5] are functions of the namespace and
    the name alone: the generator they are called on plays no part, and the
    result is the first 16 bytes of MD5(ns || name), respectively of
    SHA-1(ns || name), with the version nibble (3, respectively 5) and the
    variant bits 10 written over them.  Distinct names are not promised
    distinct identifiers. *)
Theorem hash_versions_deterministic (g g' : Gen) (ns : UUID) (name : string) :
  NewV3 g ns name = NewV3 g' ns name
  /\ NewV5 g ns name = NewV5 g' ns name
  /\ Stamped 3 (take 16 (MD5.sum (ns ++ bytes_of_string name))) (NewV3 g ns name)
  /\ Stamped 5 (take 16 (SHA1.sum (ns ++ bytes_of_string name))) (NewV5 g ns name).
Proof.
  split; [reflexivity|]. split; [reflexivity|].
  unfold NewV3, NewV5, newFromHash, Hash_Sum, Hash_Write. simpl. split.
  - apply stamped_digest; [done | by rewrite MD5_sum_length].
  - apply stamped_digest; [done | rewrite SHA1_sum_length; lia].
Qed.

(** ** Ordering inside a batch *)

Arguments fill : simpl never.

Lemma newMonotonicV7_Ok (g : MonotonicGen) (ms : Z) :
  sameMillisecond 1 g ms -> randomAvailable 1 g ->
  exists tail : list Z,
    newMonotonicV7 g
    = (Ok (v7Prefix ms (nextCounter g ms) ++ tail),
       mkMonotonicGen
         (set_rand (mkReader (script (rand (embedded g))) (pos (rand (embedded g)) + 8))
            (set_lastTime ms
               (set_epochFunc (mkEpochFunc (clock (epochFunc (embedded g)))
                                           (S (ticks (epochFunc (embedded g)))))
                  (embedded g))))
         (nextCounter g ms)).
Proof.
  intros Hms Hrand. specialize (Hms 0%nat ltac:(lia)). rewrite Nat.add_0_r in Hms.
  unfold newMonotonicV7, bind, promoted, callEpochFunc, getMonotonicClockSequence,
    readRand, ReadFull, nextCounter, timestamp.
  simpl. rewrite Hms.
  destruct (ms <=? lastTime (embedded g)); simpl;
    rewrite fill_total by (intros i Hi; apply Hrand; simpl in Hi; lia);
    eexists; reflexivity.
Qed.

Lemma nextCounter_range (g : MonotonicGen) (ms : Z) :
  0 <= nextCounter g ms < 2 ^ 16.
Proof.
  unfold nextCounter, uint16. destruct (ms <=? lastTime (embedded g)); [|lia].
  apply Z.mod_pos_bound. lia.
Qed.

(** The loop fills the slots from [i] on, one entry per iteration, each with
    the prefix of the shared millisecond and of the next counter value, and
    leaves the slots before [i] alone. *)
Lemma batchLoop_prefixes (n : nat) :
  forall (i : nat) (uuids : list UUID) (g : MonotonicGen) (ms : Z),
    sameMillisecond n g ms -> randomAvailable n g ->
    (i + n <= length uuids)%nat ->
    exists (uuids' : list UUID) (g' : MonotonicGen),
      batchLoop n i uuids g = (Ok uuids', g')
      /\ length uuids' = length uuids
      /\ (forall j, (j < i)%nat -> uuids' !! j = uuids !! j)
      /\ (forall k, (k < n)%nat ->
            exists tail, uuids' !! (i + k)%nat
                         = Some (v7Prefix ms (uint16 (nextCounter g ms + Z.of_nat k)) ++ tail)).
Proof.
  induction n as [|n IH]; intros i uuids g ms Hms Hrand Hlen; simpl.
  - exists uuids, g. split; [done|]. split; [done|]. split; [done|].
    intros k Hk. lia.
  - unfold bind.
    destruct (newMonotonicV7_Ok g ms) as [tail Hstep].
    { intros k Hk. apply Hms. lia. }
    { intros j Hj. apply Hrand. lia. }
    rewrite Hstep.
    set (c := nextCounter g ms) in *.
    set (g1 := mkMonotonicGen _ c) in *.
    set (u := v7Prefix ms c ++ tail) in *.
    destruct (IH (S i) (<[i := u]> uuids) g1 ms) as (uuids' & g' & Hloop & Hlen' & Hbefore & Hafter).
    { intros k Hk. rewrite <- (Hms (S k)) by lia. subst g1. simpl.
      do 3 f_equal. lia. }
    { intros j Hj. subst g1. simpl in *. apply Hrand. lia. }
    { rewrite length_insert. lia. }
    assert (Hc1 : nextCounter g1 ms = uint16 (c + 1)).
    { unfold nextCounter. subst g1. simpl. by rewrite Z.leb_refl. }
    exists uuids', g'. split; [exact Hloop|]. split; [by rewrite Hlen', length_insert|].
    split.
    + intros j Hj. rewrite Hbefore by lia. apply list_lookup_insert_ne. lia.
    + intros [|k] Hk.
      * exists tail. rewrite Nat.add_0_r, Hbefore by lia.
        rewrite list_lookup_insert_eq by lia.
        assert (Hc0 : uint16 (c + Z.of_nat 0) = c).
        { change (Z.of_nat 0) with 0. rewrite Z.add_0_r. unfold uint16.
          apply Z.mod_small. apply nextCounter_range. }
        by rewrite Hc0.
      * destruct (Hafter k ltac:(lia)) as [tail' Hk'].
        exists tail'. replace (i + S k)%nat with (S i + k)%nat by lia.
        assert (Hck : uint16 (uint16 (c + 1) + Z.of_nat k) = uint16 (c + Z.of_nat (S k))).
        { unfold uint16. rewrite Zplus_mod_idemp_l. f_equal. lia. }
        by rewrite Hk', Hc1, Hck.
Qed.

Lemma lex_lt_app_same (p a b : list Z) : lex_lt (p ++ a) (p ++ b) = lex_lt a b.
Proof.
  induction p as [|x p IH]; simpl; [done|].
  by rewrite Z.ltb_irrefl, Z.eqb_refl, IH.
Qed.

(** Two prefixes of one millisecond compare as the low twelve bits of their
    counters do. *)
Lemma v7Prefix_lt (ms a b : Z) (ta tb : list Z) :
  a mod 2 ^ 12 < b mod 2 ^ 12 ->
  lex_lt (v7Prefix ms a ++ ta) (v7Prefix ms b ++ tb) = true.
Proof.
  intros Hlt. unfold v7Prefix.
  change (?x0 :: ?x1 :: ?x2 :: ?x3 :: ?x4 :: ?x5 :: ?r)
    with ([x0; x1; x2; x3; x4; x5] ++ r).
  rewrite <- !app_assoc, lex_lt_app_same.
  rewrite !version_nibble by (unfold V7; lia).
  assert (Hhi : forall c, uint8 (Z.shiftr c 8) mod 2 ^ 4 = (c mod 2 ^ 12) / 2 ^ 8).
  { intros c. unfold uint8. rewrite <- (Z.shiftr_div_pow2 _ 8) by lia.
    apply Z.bits_inj'. intros i Hi.
    rewrite !Z.testbit_mod_pow2, !Z.shiftr_spec, !Z.testbit_mod_pow2 by lia.
    split_ltb; try lia; reflexivity. }
  assert (Hlo : forall c, uint8 c = (c mod 2 ^ 12) mod 2 ^ 8).
  { intros c. unfold uint8. apply Z.bits_inj'. intros i Hi.
    rewrite !Z.testbit_mod_pow2 by lia. split_ltb; try lia; reflexivity. }
  rewrite !Hhi, (Hlo a), (Hlo b). simpl.
  set (x := a mod 2 ^ 12) in *. set (y := b mod 2 ^ 12) in *.
  assert (Hx : 0 <= x < 2 ^ 12) by (apply Z.mod_pos_bound; lia).
  assert (Hy : 0 <= y < 2 ^ 12) by (apply Z.mod_pos_bound; lia).
  change (2 ^ 12) with 4096 in *. change (2 ^ 8) with 256. unfold V7.
  destruct (Z.ltb_spec (16 * 7 + x / 256) (16 * 7 + y / 256)) as [H6|H6]; [done|].
  destruct (Z.eqb_spec (16 * 7 + x / 256) (16 * 7 + y / 256)) as [E6|E6];
    [|exfalso; revert H6 E6 Hlt; clear; intros; Z.div_mod_to_equations; lia].
  destruct (Z.ltb_spec (x mod 256) (y mod 256)) as [H7|H7]; [done|].
  exfalso. revert H7 E6 Hlt. clear. intros. Z.div_mod_to_equations. lia.
Qed.

(** What does hold of the order inside a batch: when all entries fall in one
    millisecond, every random draw succeeds and the counter does not run
    past its low twelve bits during the batch, the batch succeeds and its
    entries are strictly increasing in byte order.  On a generator whose
    last timestamp is older than the batch this covers batches of up to
    4096 entries. *)
Lemma GenerateBatchV7_increasing_within_12_bits
  (n : nat) (g : MonotonicGen) (ms : Z) :
  (0 < n)%nat ->
  sameMillisecond n g ms ->
  randomAvailable n g ->
  nextCounter g ms mod 2 ^ 12 + Z.of_nat n <= 2 ^ 12 ->
  exists (uuids : list UUID) (g' : MonotonicGen),
    GenerateBatchV7 (Z.of_nat n) g = (Ok uuids, g')
    /\ length uuids = n
    /\ forall (i j : nat) (ui uj : UUID),
         (i < j)%nat -> uuids !! i = Some ui -> uuids !! j = Some uj ->
         lex_lt ui uj = true.
Proof.
  intros Hn Hms Hrand Hroom. unfold GenerateBatchV7.
  destruct (Z.leb_spec (Z.of_nat n) 0) as [Hle|_]; [lia|].
  rewrite Nat2Z.id.
  destruct (batchLoop_prefixes n 0 (replicate n Nil) g ms Hms Hrand)
    as (uuids & g' & Hloop & Hlen & _ & Hentries).
  { rewrite length_replicate. lia. }
  rewrite length_replicate in Hlen.
  exists uuids, g'. split; [exact Hloop|]. split; [exact Hlen|].
  intros i j ui uj Hij Hi Hj.
  assert (Hjn : (j < n)%nat) by (apply lookup_lt_Some in Hj; lia).
  destruct (Hentries i ltac:(lia)) as [ti Hi']. destruct (Hentries j Hjn) as [tj Hj'].
  pose proof (eq_trans (eq_sym Hi) Hi') as Ei.
  pose proof (eq_trans (eq_sym Hj) Hj') as Ej.
  injection Ei as ->. injection Ej as ->.
  apply v7Prefix_lt. unfold uint16.
  pose proof (nextCounter_range g ms) as Hc.
  revert Hroom Hc Hij Hjn. generalize (nextCounter g ms). clear. intros c Hroom Hc Hij Hjn.
  change (2 ^ 12) with 4096 in *. change (2 ^ 16) with 65536 in *.
  Z.div_mod_to_equations. lia.
Qed.

(** Five entries in one millisecond, as in the specification's test. *)
Example batch_of_five_increasing :
  exists (uuids : list UUID) (g' : MonotonicGen),
    GenerateBatchV7 5 (NewMonotonicGen stubDefaults []) = (Ok uuids, g')
    /\ length uuids = 5%nat
    /\ forall (i j : nat) (ui uj : UUID),
         (i < j)%nat -> uuids !! i = Some ui -> uuids !! j = Some uj ->
         lex_lt ui uj = true.
Proof.
  apply (GenerateBatchV7_increasing_within_12_bits 5 (NewMonotonicGen stubDefaults [])
           1700000000000).
  - lia.
  - intros k _. reflexivity.
  - intros i _. exists 0. reflexivity.
  - vm_compute. discriminate.
Qed.

(** C1, at a failing input.  On a fresh batch generator whose clock stands
    still and whose random source delivers zero bytes, a batch of 4097
    succeeds, but its entry 4096 equals its entry 0 and so is not greater
    in byte order: the counter has run past the twelve bits that
    [SetVersion] leaves of it in bytes 6-7. *)
Theorem GenerateBatchV7_4097_repeats :
  match (GenerateBatchV7 4097
           (NewMonotonicGen stubDefaults
              [WithEpochFunc (Some (fixedClock (mkTime 1700000000 0)));
               WithRandomReader (Some zeroReader)])).1 with
  | Ok uuids =>
      length uuids = 4097%nat
      /\ nth 0 uuids [] = [1; 139; 207; 229; 104; 0; 0x70; 0; 0x80; 0; 0; 0; 0; 0; 0; 0]
      /\ nth 4095 uuids [] = [1; 139; 207; 229; 104; 0; 0x7f; 0xff; 0x80; 0; 0; 0; 0; 0; 0; 0]
      /\ nth 4096 uuids [] = nth 0 uuids []
      /\ lex_lt (nth 0 uuids []) (nth 4096 uuids []) = false
      /\ lex_lt (nth 4095 uuids []) (nth 4096 uuids []) = false
  | Err _ => False
  end.
Proof. vm_compute. repeat split; reflexivity. Qed.

(** * Further properties of the generator *)

(** ** Layout of versions 1 and 7 *)

Lemma shifted_byte (x b : Z) :
  0 <= b -> uint8 (Z.shiftr x b) = (x / 2 ^ b) mod 2 ^ 8.
Proof. intros Hb. unfold uint8. by rewrite Z.shiftr_div_pow2. Qed.

Lemma shifted_bits (x b w : Z) :
  0 <= b -> 0 <= w <= 8 ->
  uint8 (Z.shiftr x b) mod 2 ^ w = (x / 2 ^ b) mod 2 ^ w.
Proof.
  intros Hb Hw. unfold uint8. rewrite <- (Z.shiftr_div_pow2 x b) by lia.
  apply Z.bits_inj'. intros i Hi. rewrite !Z.testbit_mod_pow2 by lia.
  split_ltb; try lia; reflexivity.
Qed.

(** The eight bytes [newMonotonicV7] and [NewV7AtTime] write first, digit
    by digit. *)
Lemma v7Prefix_digits (ms c : Z) :
  v7Prefix ms c
  = [ (ms / 2 ^ 40) mod 2 ^ 8; (ms / 2 ^ 32) mod 2 ^ 8;
      (ms / 2 ^ 24) mod 2 ^ 8; (ms / 2 ^ 16) mod 2 ^ 8;
      (ms / 2 ^ 8) mod 2 ^ 8; ms mod 2 ^ 8;
      0x70 + (c / 2 ^ 8) mod 2 ^ 4; c mod 2 ^ 8 ].
Proof.
  unfold v7Prefix. rewrite version_nibble by (unfold V7; lia).
  rewrite (shifted_bits c 8 4) by lia. rewrite !shifted_byte by lia.
  reflexivity.
Qed.

(** A successful [NewV7AtTime] is a successful tracker call in millisecond
    mode followed by a successful read of eight bytes. *)
Lemma NewV7AtTime_Ok_inv (atTime : Time) (g g' : Gen) (u : UUID) :
  NewV7AtTime atTime g = (Ok u, g') ->
  exists (cs : Z) (g1 : Gen) (r0 r1 r2 r3 r4 r5 r6 r7 : Z),
    getClockSequence true atTime g = (Ok (timestamp true atTime, cs), g1)
    /\ nextRandom g1 8 = [r0; r1; r2; r3; r4; r5; r6; r7]
    /\ u = v7Prefix (timestamp true atTime) cs
           ++ [Z.lor (Z.land r0 63) 128; r1; r2; r3; r4; r5; r6; r7]
    /\ g' = set_rand (mkReader (script (rand g1)) (pos (rand g1) + 8)) g1.
Proof.
  unfold NewV7AtTime, bind.
  destruct (getClockSequence true atTime g) as [[[ts cs]|e] g1] eqn:Hcall; [|discriminate].
  destruct (getClockSequence_Ok_inv _ _ _ _ _ _ Hcall) as (g0 & _ & Hts & _ & _).
  unfold readRand.
  match goal with |- context [ReadFull ?r ?b] =>
      destruct (ReadFull r b) as [[tail r'] [e|]] eqn:Hread end; [discriminate|].
  apply ReadFull_Ok in Hread. destruct Hread as [-> ->].
  intros H. inversion H; subst u g'; clear H. subst ts.
  exists cs, g1. unfold nextRandom.
  cbv [BigEndian_PutUint16 SetVersion SetVariantRFC9562 Nil putUnixMs
       replicate insert list_insert alter list_alter take firstn drop skipn app
       length bytesAt seq map v7Prefix].
  do 8 eexists. split; [reflexivity|]. split; [reflexivity|]. split; reflexivity.
Qed.

(** Version-7 layout.  For a successful [NewV7AtTime], with ms the
    millisecond timestamp, c the clock sequence the tracker returned and
    r0..r7 the next eight random bytes after the tracker's call: bytes 0-5
    are bits 47-0 of ms, byte 6 the version nibble 7 followed by bits 11-8
    of c, byte 7 bits 7-0 of c, byte 8 the variant bits 10 followed by the
    low six bits of r0, and bytes 9-15 are r1..r7; the call consumes
    exactly those eight bytes. *)
Theorem NewV7AtTime_layout (atTime : Time) (g g' : Gen) (u : UUID) :
  NewV7AtTime atTime g = (Ok u, g') ->
  let tracked := (getClockSequence true atTime g).2 in
  V7Layout (uint64 (UnixMilli atTime)) (clockSequence tracked)
           (nextRandom tracked 8) u
  /\ rand g' = mkReader (script (rand tracked)) (pos (rand tracked) + 8).
Proof.
  intros Hcall.
  destruct (NewV7AtTime_Ok_inv _ _ _ _ Hcall)
    as (cs & g1 & r0 & r1 & r2 & r3 & r4 & r5 & r6 & r7 & Htrack & Hr & -> & ->).
  destruct (getClockSequence_Ok_inv _ _ _ _ _ _ Htrack) as (g0 & _ & _ & _ & Hg1).
  rewrite Htrack. cbn [snd]. split; [|reflexivity].
  exists r0, r1, r2, r3, r4, r5, r6, r7. split; [exact Hr|].
  rewrite v7Prefix_digits, variant_byte.
  replace (clockSequence g1) with cs by (by subst g1). reflexivity.
Qed.

Lemma copy_length (dst src : list Z) : length (copy dst src) = length dst.
Proof. unfold copy. rewrite length_app, length_take, length_drop. lia. Qed.

(** Whatever its outcome, a hardware-address call keeps the size of the
    cache, leaves the tracker's fields alone and marks the address
    resolved; on success it returns the cache. *)
Lemma getHardwareAddr_frame (g : Gen) :
  let r := getHardwareAddr g in
  length (hardwareAddr r.2) = length (hardwareAddr g)
  /\ hardwareAddrOnce r.2 = true
  /\ clockSequence r.2 = clockSequence g
  /\ clockSequenceOnce r.2 = clockSequenceOnce g
  /\ lastTime r.2 = lastTime g
  /\ epochFunc r.2 = epochFunc g
  /\ forall a, r.1 = Ok a -> a = hardwareAddr r.2.
Proof.
  unfold getHardwareAddr, bind, resolveHardwareAddr.
  destruct (hardwareAddrOnce g) eqn:Honce; simpl.
  { repeat split; try done. intros a H. by inversion H. }
  destruct (hwsrc (hwAddrFunc g) (hwcalls (hwAddrFunc g))) as [hwAddr|e0]; simpl.
  { rewrite copy_length. repeat split; try done. intros a H. by inversion H. }
  unfold ReadFull.
  pose proof (fill_length (script (rand g)) (pos (rand g)) true (hardwareAddr g)) as Hlen.
  destruct (fill (script (rand g)) (pos (rand g)) true (hardwareAddr g))
    as [[buf q] [e|]]; simpl in *.
  - repeat split; try done.
  - rewrite length_alter. repeat split; try done. intros a H. by inversion H.
Qed.

Lemma mod_byte_low (x w : Z) : 0 <= w <= 8 -> (x mod 2 ^ 8) mod 2 ^ w = x mod 2 ^ w.
Proof.
  intros Hw. apply Z.bits_inj'. intros i Hi. rewrite !Z.testbit_mod_pow2 by lia.
  split_ltb; try lia; reflexivity.
Qed.

Lemma trunc_byte (x w : Z) : 8 <= w -> uint8 (x mod 2 ^ w) = x mod 2 ^ 8.
Proof.
  intros Hw. unfold uint8. apply Z.bits_inj'. intros i Hi.
  rewrite !Z.testbit_mod_pow2 by lia. split_ltb; try lia; reflexivity.
Qed.

(** A successful [NewV1AtTime] is a successful tracker call in 100 ns mode
    followed by a successful hardware-address call, and its bytes are laid
    out from the two results. *)
Lemma NewV1AtTime_Ok_inv (atTime : Time) (g g' : Gen) (u : UUID) :
  length (hardwareAddr g) = 6%nat ->
  NewV1AtTime atTime g = (Ok u, g') ->
  exists (cs : Z) (g1 : Gen),
    getClockSequence false atTime g = (Ok (getEpoch atTime, cs), g1)
    /\ (getHardwareAddr g1).2 = g'
    /\ length (hardwareAddr g1) = 6%nat
    /\ V1Layout (getEpoch atTime) cs (hardwareAddr g') u.
Proof.
  intros Hlen. unfold NewV1AtTime, bind.
  destruct (getClockSequence false atTime g) as [[[ts cs]|e] g1] eqn:Hcall; [|discriminate].
  destruct (getClockSequence_Ok_inv _ _ _ _ _ _ Hcall) as (g0 & Hseed & Hts & _ & Hg1).
  simpl in Hts.
  assert (Hlen1 : length (hardwareAddr g1) = 6%nat).
  { subst g1. simpl. unfold seedClockSequence in Hseed.
    destruct (clockSequenceOnce g); [by inversion Hseed; subst|].
    destruct (ReadFull (rand g) [0; 0]) as [[buf r] [e|]]; inversion Hseed; by subst. }
  destruct (getHardwareAddr_frame g1) as (Hsize & _ & _ & _ & _ & _ & Hret).
  destruct (getHardwareAddr g1) as [[a|e] g2] eqn:Hhw; [|discriminate].
  simpl in Hsize, Hret. specialize (Hret a eq_refl).
  intros H. inversion H; subst u g'; clear H.
  exists cs, g1. rewrite <- Hts. split; [reflexivity|]. split; [by rewrite Hhw|].
  split; [exact Hlen1|].
  rewrite <- Hret. rewrite <- Hret, Hlen1 in Hsize.
  clear - Hsize. do 6 (destruct a as [|? a]; [discriminate|]).
  destruct a; [|discriminate].
  unfold V1Layout. do 6 eexists. split; [reflexivity|].
  cbv [BigEndian_PutUint32 BigEndian_PutUint16 SetVersion SetVariantRFC9562 Nil
       replicate insert list_insert alter list_alter take firstn drop skipn app
       length copy].
  repeat match goal with |- _ :: _ = _ :: _ => f_equal end.
  - exact (field_byte ts 0 32 24 ltac:(lia) ltac:(lia) ltac:(lia)).
  - exact (field_byte ts 0 32 16 ltac:(lia) ltac:(lia) ltac:(lia)).
  - exact (field_byte ts 0 32 8 ltac:(lia) ltac:(lia) ltac:(lia)).
  - exact (trunc_byte ts 32 ltac:(lia)).
  - exact (field_byte ts 32 16 8 ltac:(lia) ltac:(lia) ltac:(lia)).
  - exact (field_byte ts 32 16 0 ltac:(lia) ltac:(lia) ltac:(lia)).
  - rewrite version_nibble by (unfold V1; lia). unfold uint16.
    rewrite (field_byte ts 48 16 8) by lia. rewrite mod_byte_low by lia.
    reflexivity.
  - exact (field_byte ts 48 16 0 ltac:(lia) ltac:(lia) ltac:(lia)).
  - rewrite variant_byte. rewrite (shifted_bits cs 8 6) by lia. reflexivity.
Qed.

(** Version-1 layout.  For a successful [NewV1AtTime] on a generator whose
    address cache has its six bytes, with t the 100 ns timestamp and c the
    clock sequence the tracker returned: bytes 0-3 are bits 31-0 of t,
    bytes 4-5 bits 47-32, byte 6 the version nibble 1 followed by bits
    59-56, byte 7 bits 55-48, byte 8 the variant bits 10 followed by bits
    13-8 of c, byte 9 bits 7-0 of c, and bytes 10-15 the cached hardware
    address.  Afterwards the address is resolved and the tracker holds t
    and c. *)
Theorem NewV1AtTime_layout (atTime : Time) (g g' : Gen) (u : UUID) :
  length (hardwareAddr g) = 6%nat ->
  NewV1AtTime atTime g = (Ok u, g') ->
  V1Layout (getEpoch atTime)
           (clockSequence (getClockSequence false atTime g).2)
           (hardwareAddr g') u
  /\ clockSequence g' = clockSequence (getClockSequence false atTime g).2
  /\ lastTime g' = getEpoch atTime
  /\ hardwareAddrOnce g' = true.
Proof.
  intros Hlen Hcall.
  destruct (NewV1AtTime_Ok_inv _ _ _ _ Hlen Hcall) as (cs & g1 & Htrack & Hhw & _ & Hlayout).
  destruct (getClockSequence_Ok_inv _ _ _ _ _ _ Htrack) as (g0 & _ & _ & _ & Hg1).
  destruct (getHardwareAddr_frame g1) as (_ & Honce & Hcs & _ & Hlast & _).
  rewrite Hhw in Honce, Hcs, Hlast.
  rewrite Htrack. cbn [snd].
  replace (clockSequence g1) with cs in * by (by subst g1).
  replace (lastTime g1) with (getEpoch atTime) in * by (by subst g1).
  done.
Qed.

(** Version 1 inside one 100 ns tick.  Two successful [NewV1AtTime] calls in
    a row at the same instant advance the clock sequence by one modulo 2^16
    and return different identifiers that share their time bytes 0-7 and
    their node bytes 10-15. *)
Theorem NewV1AtTime_same_instant
  (atTime : Time) (g g1 g2 : Gen) (u1 u2 : UUID) :
  length (hardwareAddr g) = 6%nat ->
  NewV1AtTime atTime g = (Ok u1, g1) ->
  NewV1AtTime atTime g1 = (Ok u2, g2) ->
  u1 <> u2
  /\ take 8 u1 = take 8 u2
  /\ drop 10 u1 = drop 10 u2
  /\ clockSequence g2 = (clockSequence g1 + 1) mod 2 ^ 16.
Proof.
  intros Hlen H1 H2.
  destruct (NewV1AtTime_Ok_inv _ _ _ _ Hlen H1) as (c1 & s1 & Ht1 & Hhw1 & Hlen1 & L1).
  destruct (getClockSequence_Ok_inv _ _ _ _ _ _ Ht1) as (s0 & Hseed & _ & _ & Hs1).
  destruct (seedClockSequence_Ok _ _ Hseed) as (Honce0 & _ & _).
  destruct (getHardwareAddr_frame s1) as (Hsz & Hhwonce & Hcs & Honce & Hlast & _).
  rewrite Hhw1 in Hsz, Hhwonce, Hcs, Honce, Hlast.
  replace (clockSequence s1) with c1 in Hcs by (by subst s1).
  replace (lastTime s1) with (getEpoch atTime) in Hlast by (by subst s1).
  replace (clockSequenceOnce s1) with true in Honce by (by subst s1).
  assert (Hlen' : length (hardwareAddr g1) = 6%nat) by lia.
  destruct (NewV1AtTime_Ok_inv _ _ _ _ Hlen' H2) as (c2 & s2 & Ht2 & Hhw2 & _ & L2).
  rewrite getClockSequence_seeded in Ht2 by exact Honce.
  change (timestamp false atTime) with (getEpoch atTime) in Ht2.
  rewrite Hlast, Z.leb_refl, Hcs in Ht2. injection Ht2 as Hc2 Hs2.
  assert (Hg2 : g2 = s2).
  { rewrite <- Hhw2. rewrite getHardwareAddr_cached; [reflexivity|].
    rewrite <- Hs2. exact Hhwonce. }
  assert (Hh : hardwareAddr g2 = hardwareAddr g1) by (rewrite Hg2, <- Hs2; reflexivity).
  rewrite Hh in L2.
  destruct L1 as (h0 & h1 & h2 & h3 & h4 & h5 & Hh1 & ->).
  destruct L2 as (k0 & k1 & k2 & k3 & k4 & k5 & Hh2 & ->).
  rewrite Hh1 in Hh2. injection Hh2 as <- <- <- <- <- <-.
  split; [|split; [reflexivity|split; [reflexivity|]]].
  - intros Heq. injection Heq as E8 E9. subst c2. clear - E8 E9.
    unfold uint16 in *. change (2 ^ 16) with 65536 in *.
    change (2 ^ 8) with 256 in *. change (2 ^ 6) with 64 in *.
    revert E8 E9. Z.div_mod_to_equations. lia.
  - rewrite Hg2, <- Hs2, Hcs. reflexivity.
Qed.

(** ** Version 4 *)

(** Version-4 layout.  A successful [NewV4] returns the next 16 bytes of the
    random source with the version nibble 4 and the variant bits 10 written
    over them, and changes nothing of the generator but the position of
    the reader, which moves by 16. *)
Theorem NewV4_layout (g g' : Gen) (u : UUID) :
  NewV4 g = (Ok u, g') ->
  Stamped 4 (nextRandom g 16) u
  /\ g' = set_rand (mkReader (script (rand g)) (pos (rand g) + 16)) g.
Proof.
  unfold NewV4, bind, readRand.
  destruct (ReadFull (rand g) Nil) as [[buf r] [e|]] eqn:Hread; [discriminate|].
  apply ReadFull_Ok in Hread. destruct Hread as [-> ->].
  intros H. inversion H; subst u g'; clear H. split; [|reflexivity].
  unfold Stamped, nextRandom.
  cbv [SetVersion SetVariantRFC9562 Nil replicate alter list_alter length bytesAt seq map].
  do 16 eexists. split; [reflexivity|].
  repeat match goal with |- _ :: _ = _ :: _ => f_equal end.
  - apply version_nibble. unfold V4. lia.
  - apply variant_byte.
Qed.

(** ** Batches as a series of single issues *)

Lemma issueV7_length (n : nat) (g g' : MonotonicGen) (us : list UUID) :
  issueV7 n g = (Ok us, g') -> length us = n.
Proof.
  revert g g' us. induction n as [|n IH]; intros g g' us; simpl.
  - intros H. by inversion H.
  - unfold bind. destruct (newMonotonicV7 g) as [[u|e] g1]; [|discriminate].
    destruct (issueV7 n g1) as [[us'|e] g2] eqn:Hrest; [|discriminate].
    intros H. inversion H; subst. simpl. f_equal. eapply IH. exact Hrest.
Qed.

(** The loop writes the identifiers of the series into the slots from [i]
    on and stops with the error of the first call that fails. *)
Lemma batchLoop_issueV7 (n : nat) :
  forall (i : nat) (uuids : list UUID) (g : MonotonicGen),
    (i + n <= length uuids)%nat ->
    batchLoop n i uuids g
    = match issueV7 n g with
      | (Ok us, g') => (Ok (take i uuids ++ us ++ drop (i + n) uuids), g')
      | (Err e, g') => (Err e, g')
      end.
Proof.
  induction n as [|n IH]; intros i uuids g Hlen; simpl.
  - unfold ret. rewrite Nat.add_0_r. by rewrite take_drop.
  - unfold bind. destruct (newMonotonicV7 g) as [[u|e] g1]; [|done].
    rewrite IH by (rewrite length_insert; lia).
    destruct (issueV7 n g1) as [[us|e] g2]; [|done].
    unfold ret. do 2 f_equal.
    rewrite (take_S_r _ i u) by (apply list_lookup_insert_eq; lia).
    rewrite take_insert_ge by lia. rewrite drop_insert_lt by lia.
    replace (S i + n)%nat with (i + S n)%nat by lia.
    by rewrite <- app_assoc.
Qed.

Lemma issueV7_app (n m : nat) (g : MonotonicGen) :
  issueV7 (n + m) g
  = (us1 <- issueV7 n ;; us2 <- issueV7 m ;; ret (us1 ++ us2)) g.
Proof.
  revert g. induction n as [|n IH]; intros g; simpl.
  - unfold bind, ret. simpl. destruct (issueV7 m g) as [[us|e] g']; reflexivity.
  - unfold bind, ret in *. destruct (newMonotonicV7 g) as [[u|e] g1]; [|done].
    rewrite IH. destruct (issueV7 n g1) as [[us1|e] g2]; [|done].
    destruct (issueV7 m g2) as [[us2|e] g3]; reflexivity.
Qed.

(** A batch is a series of single issues.  For a positive size the loop
    over the preallocated slice returns exactly the identifiers of that
    many consecutive [newMonotonicV7] calls, in call order, or the error of
    the first call that fails, and leaves the generator as those calls
    do. *)
Theorem GenerateBatchV7_is_series (n : nat) (g : MonotonicGen) :
  (0 < n)%nat -> GenerateBatchV7 (Z.of_nat n) g = issueV7 n g.
Proof.
  intros Hn. unfold GenerateBatchV7.
  destruct (Z.leb_spec (Z.of_nat n) 0) as [Hle|_]; [lia|].
  rewrite Nat2Z.id, batchLoop_issueV7 by (rewrite length_replicate; lia).
  destruct (issueV7 n g) as [[us|e] g'] eqn:Hrun; [|done].
  rewrite drop_ge by (rewrite length_replicate; lia).
  by rewrite app_nil_r.
Qed.

(** Batch boundaries do not show.  Two successful batches in a row return,
    concatenated, what one batch of the total size returns from the same
    starting state, and leave the same state. *)
Theorem GenerateBatchV7_split
  (n m : nat) (g g1 g2 : MonotonicGen) (us1 us2 : list UUID) :
  (0 < n)%nat -> (0 < m)%nat ->
  GenerateBatchV7 (Z.of_nat n) g = (Ok us1, g1) ->
  GenerateBatchV7 (Z.of_nat m) g1 = (Ok us2, g2) ->
  GenerateBatchV7 (Z.of_nat (n + m)) g = (Ok (us1 ++ us2), g2).
Proof.
  intros Hn Hm. unfold GenerateBatchV7.
  destruct (Z.leb_spec (Z.of_nat n) 0) as [?|_]; [lia|].
  destruct (Z.leb_spec (Z.of_nat m) 0) as [?|_]; [lia|].
  destruct (Z.leb_spec (Z.of_nat (n + m)) 0) as [?|_]; [lia|].
  rewrite !Nat2Z.id, !batchLoop_issueV7 by (rewrite length_replicate; lia).
  rewrite issueV7_app. unfold bind, ret.
  destruct (issueV7 n g) as [[us|e] g'] eqn:Hfirst; [|discriminate].
  rewrite (drop_ge (replicate n Nil)) by (rewrite length_replicate; lia).
  rewrite app_nil_r. intros H. inversion H; subst us g'; clear H.
  destruct (issueV7 m g1) as [[us|e] g'] eqn:Hsecond; [|discriminate].
  rewrite (drop_ge (replicate m Nil)) by (rewrite length_replicate; lia).
  rewrite app_nil_r. intros H. inversion H; subst us g'; clear H.
  rewrite drop_ge by (rewrite length_replicate; lia).
  by rewrite app_nil_r.
Qed.

(** ** Version nibble and variant bits of every identifier *)

Lemma nibble_div (v x : Z) : (16 * v + x mod 2 ^ 4) / 16 = v.
Proof. change (2 ^ 4) with 16. Z.div_mod_to_equations. lia. Qed.

Lemma variant_div (x : Z) : (0x80 + x mod 2 ^ 6) / 64 = 2.
Proof. change (2 ^ 6) with 64. Z.div_mod_to_equations. lia. Qed.

Lemma Stamped_hasVersion (v : Z) (d : list Z) (u : UUID) :
  Stamped v d u -> hasVersion v u.
Proof.
  intros (d0 & d1 & d2 & d3 & d4 & d5 & d6 & d7 & d8 & d9 & d10 & d11 & d12
          & d13 & d14 & d15 & _ & ->).
  unfold hasVersion. cbn [length nth].
  split; [reflexivity|]. split; [apply nibble_div | apply variant_div].
Qed.

Lemma V6Layout_hasVersion (t : Z) (r : list Z) (u : UUID) :
  V6Layout t r u -> hasVersion 6 u.
Proof.
  intros (r0 & r1 & r2 & r3 & r4 & r5 & r6 & r7 & _ & ->).
  unfold hasVersion. cbn [length nth].
  split; [reflexivity|]. split; [apply (nibble_div 6) | apply variant_div].
Qed.

(** The identifiers of both version-7 encoders have this shape. *)
Lemma v7_shape_hasVersion (ms c r0 r1 r2 r3 r4 r5 r6 r7 : Z) :
  hasVersion 7 (v7Prefix ms c ++ [Z.lor (Z.land r0 63) 128; r1; r2; r3; r4; r5; r6; r7]).
Proof.
  rewrite v7Prefix_digits, variant_byte. unfold hasVersion. cbn [length nth app].
  split; [reflexivity|]. split; [apply (nibble_div 7) | apply variant_div].
Qed.

Lemma newMonotonicV7_hasVersion (g g' : MonotonicGen) (u : UUID) :
  newMonotonicV7 g = (Ok u, g') -> hasVersion 7 u.
Proof.
  unfold newMonotonicV7, bind, promoted, callEpochFunc, getMonotonicClockSequence, readRand.
  cbn [fst snd embedded set_embedded].
  match goal with |- context [ReadFull ?r ?b] =>
      destruct (ReadFull r b) as [[tail r'] [e|]] eqn:Hread end; [discriminate|].
  apply ReadFull_Ok in Hread. destruct Hread as [-> _].
  intros H. inversion H; subst u; clear H.
  cbv [BigEndian_PutUint16 SetVersion SetVariantRFC9562 Nil putUnixMs
       replicate insert list_insert alter list_alter take firstn drop skipn app
       length bytesAt seq map].
  apply (v7_shape_hasVersion _ _ _ _ _ _ _ _ _ _).
Qed.

Lemma issueV7_hasVersion (n : nat) (g g' : MonotonicGen) (us : list UUID) :
  issueV7 n g = (Ok us, g') -> Forall (hasVersion 7) us.
Proof.
  revert g g' us. induction n as [|n IH]; intros g g' us; simpl.
  - intros H. inversion H. constructor.
  - unfold bind. destruct (newMonotonicV7 g) as [[u|e] g1] eqn:Hstep; [|discriminate].
    destruct (issueV7 n g1) as [[us'|e] g2] eqn:Hrest; [|discriminate].
    intros H. inversion H; subst. constructor.
    + eapply newMonotonicV7_hasVersion. exact Hstep.
    + eapply IH. exact Hrest.
Qed.

(** A batch that succeeds was asked for a positive size, returns exactly
    that many identifiers, and each is 16 bytes long with version nibble 7
    and variant bits 10, whatever the clock does during the batch. *)
Theorem GenerateBatchV7_Ok_shape
  (batchSize : Z) (g g' : MonotonicGen) (uuids : list UUID) :
  GenerateBatchV7 batchSize g = (Ok uuids, g') ->
  0 < batchSize
  /\ Z.of_nat (length uuids) = batchSize
  /\ Forall (hasVersion 7) uuids.
Proof.
  unfold GenerateBatchV7.
  destruct (Z.leb_spec batchSize 0) as [Hle|Hpos]; [discriminate|].
  rewrite batchLoop_issueV7 by (rewrite length_replicate; lia).
  destruct (issueV7 (Z.to_nat batchSize) g) as [[us|e] g1] eqn:Hrun; [|discriminate].
  pose proof (issueV7_length _ _ _ _ Hrun) as Hlen.
  rewrite drop_ge by (rewrite length_replicate; lia). rewrite app_nil_r.
  intros H. inversion H; subst uuids g'; clear H.
  split; [exact Hpos|]. split; [lia|]. eapply issueV7_hasVersion. exact Hrun.
Qed.

(** Every identifier a generator returns is 16 bytes long and carries the
    version nibble of the function that made it (1, 3, 4, 5, 6, 7) in the
    top four bits of byte 6 and the variant bits 10 in the top two bits of
    byte 8. *)
Theorem identifiers_carry_version_and_variant :
  (forall (atTime : Time) (g g' : Gen) (u : UUID),
     NewV1AtTime atTime g = (Ok u, g') -> hasVersion 1 u)
  /\ (forall (g : Gen) (ns : UUID) (name : string), hasVersion 3 (NewV3 g ns name))
  /\ (forall (g g' : Gen) (u : UUID), NewV4 g = (Ok u, g') -> hasVersion 4 u)
  /\ (forall (g : Gen) (ns : UUID) (name : string), hasVersion 5 (NewV5 g ns name))
  /\ (forall (atTime : Time) (g g' : Gen) (u : UUID),
        NewV6AtTime atTime g = (Ok u, g') -> hasVersion 6 u)
  /\ (forall (atTime : Time) (g g' : Gen) (u : UUID),
        NewV7AtTime atTime g = (Ok u, g') -> hasVersion 7 u).
Proof.
  split; [|split; [|split; [|split; [|split]]]].
  - intros atTime g g' u. unfold NewV1AtTime, bind.
    destruct (getClockSequence false atTime g) as [[[ts cs]|e] g1]; [|discriminate].
    destruct (getHardwareAddr g1) as [[a|e] g2]; [|discriminate].
    intros H. inversion H; subst u g'; clear H.
    cbv [BigEndian_PutUint32 BigEndian_PutUint16 SetVersion SetVariantRFC9562 Nil
         replicate insert list_insert alter list_alter take firstn drop skipn app].
    unfold hasVersion. cbn [length nth]. rewrite copy_length. cbn [length].
    split; [reflexivity|].
    rewrite version_nibble by (unfold V1; lia). rewrite variant_byte.
    split; [apply (nibble_div 1) | apply variant_div].
  - intros g ns name. eapply Stamped_hasVersion.
    unfold NewV3, newFromHash, Hash_Sum, Hash_Write. simpl.
    apply stamped_digest; [unfold V3; lia | by rewrite MD5_sum_length].
  - intros g g' u. unfold NewV4, bind, readRand.
    destruct (ReadFull (rand g) Nil) as [[buf r] [e|]] eqn:Hread; [discriminate|].
    apply ReadFull_Ok in Hread. destruct Hread as [-> ->].
    intros H. inversion H; subst u g'; clear H.
    cbv [SetVersion SetVariantRFC9562 Nil replicate alter list_alter length bytesAt seq map].
    unfold hasVersion. cbn [length nth]. split; [reflexivity|].
    rewrite version_nibble by (unfold V4; lia). rewrite variant_byte.
    split; [apply (nibble_div 4) | apply variant_div].
  - intros g ns name. eapply Stamped_hasVersion.
    unfold NewV5, newFromHash, Hash_Sum, Hash_Write. simpl.
    apply stamped_digest; [unfold V5; lia | rewrite SHA1_sum_length; lia].
  - intros atTime g g' u Hcall. eapply V6Layout_hasVersion.
    eapply NewV6AtTime_bytes. exact Hcall.
  - intros atTime g g' u Hcall.
    destruct (NewV7AtTime_Ok_inv _ _ _ _ Hcall)
      as (cs & g1 & r0 & r1 & r2 & r3 & r4 & r5 & r6 & r7 & _ & _ & -> & _).
    apply v7_shape_hasVersion.
Qed.

(** ** A random draw that fails inside a batch *)

Lemma newMonotonicV7_Err (g : MonotonicGen) (ms : Z) (e : error) :
  sameMillisecond 1 g ms ->
  (ReadFull (rand (embedded g)) (replicate 8 0)).2 = Some e ->
  exists r : Reader,
    newMonotonicV7 g
    = (Err e,
       mkMonotonicGen
         (set_rand r
            (set_lastTime ms
               (set_epochFunc (mkEpochFunc (clock (epochFunc (embedded g)))
                                           (S (ticks (epochFunc (embedded g)))))
                  (embedded g))))
         (nextCounter g ms)).
Proof.
  intros Hms Hread. specialize (Hms 0%nat ltac:(lia)). rewrite Nat.add_0_r in Hms.
  unfold newMonotonicV7, bind, promoted, callEpochFunc, getMonotonicClockSequence,
    readRand, nextCounter, timestamp.
  simpl. rewrite Hms.
  destruct (ms <=? lastTime (embedded g)); simpl;
    change (ReadFull (rand (embedded g)) [0; 0; 0; 0; 0; 0; 0; 0])
      with (ReadFull (rand (embedded g)) (replicate 8 0));
    destruct (ReadFull (rand (embedded g)) (replicate 8 0)) as [[buf r] e'];
    simpl in Hread; subst e'; exists r; reflexivity.
Qed.

Lemma issueV7_fails (k : nat) :
  forall (n : nat) (g : MonotonicGen) (ms : Z) (e : error),
    (k < n)%nat ->
    sameMillisecond (S k) g ms ->
    randomAvailable k g ->
    (ReadFull (mkReader (script (rand (embedded g)))
                        (pos (rand (embedded g)) + 8 * k))
              (replicate 8 0)).2 = Some e ->
    exists g' : MonotonicGen,
      issueV7 n g = (Err e, g')
      /\ monotonicCounter g' = uint16 (nextCounter g ms + Z.of_nat k)
      /\ lastTime (embedded g') = ms
      /\ ticks (epochFunc (embedded g')) = (ticks (epochFunc (embedded g)) + S k)%nat.
Proof.
  induction k as [|k IH]; intros n g ms e Hkn Hms Hrand Hread;
    (destruct n as [|n]; [lia|]); simpl; unfold bind.
  - rewrite Nat.mul_0_r, Nat.add_0_r in Hread.
    replace (mkReader (script (rand (embedded g))) (pos (rand (embedded g))))
      with (rand (embedded g)) in Hread by (by destruct (rand (embedded g))).
    destruct (newMonotonicV7_Err g ms e Hms Hread) as [r ->].
    eexists. split; [reflexivity|]. simpl. split.
    + rewrite Z.add_0_r. unfold uint16. symmetry. apply Z.mod_small.
      apply nextCounter_range.
    + split; [reflexivity | lia].
  - destruct (newMonotonicV7_Ok g ms) as [tail Hstep].
    { intros j Hj. apply Hms. lia. }
    { intros j Hj. apply Hrand. lia. }
    rewrite Hstep.
    match type of Hstep with _ = (_, ?s) => set (g1 := s) in * end.
    destruct (IH n g1 ms e) as (g' & Hrun & Hc & Ht & Hticks).
    + lia.
    + intros j Hj. subst g1. simpl. rewrite <- (Hms (S j)) by lia.
      do 3 f_equal. lia.
    + intros j Hj. subst g1. simpl in *. apply Hrand. lia.
    + replace (pos (rand (embedded g)) + 8 * S k)%nat
        with (pos (rand (embedded g)) + 8 + 8 * k)%nat in Hread by lia.
      exact Hread.
    + rewrite Hrun. exists g'. split; [reflexivity|]. split; [|split].
      * rewrite Hc. unfold nextCounter. subst g1. simpl. rewrite Z.leb_refl.
        fold (nextCounter g ms). unfold uint16. rewrite Zplus_mod_idemp_l.
        f_equal. lia.
      * exact Ht.
      * rewrite Hticks. subst g1. simpl. lia.
Qed.

(** A random draw that fails inside a batch.  When the entries all fall in
    millisecond ms, the draws of the first k entries succeed and the draw
    of entry k < n fails with e, the batch returns e and no identifier,
    but the generator keeps what the k + 1 calls did: the counter stands
    at the value of the failed entry, the last timestamp is ms and the
    epoch source has been called k + 1 times. *)
Theorem GenerateBatchV7_fails_midway
  (n k : nat) (g : MonotonicGen) (ms : Z) (e : error) :
  (k < n)%nat ->
  sameMillisecond (S k) g ms ->
  randomAvailable k g ->
  (ReadFull (mkReader (script (rand (embedded g)))
                      (pos (rand (embedded g)) + 8 * k))
            (replicate 8 0)).2 = Some e ->
  exists g' : MonotonicGen,
    GenerateBatchV7 (Z.of_nat n) g = (Err e, g')
    /\ monotonicCounter g' = uint16 (nextCounter g ms + Z.of_nat k)
    /\ lastTime (embedded g') = ms
    /\ ticks (epochFunc (embedded g')) = (ticks (epochFunc (embedded g)) + S k)%nat.
Proof.
  intros Hkn Hms Hrand Hread.
  destruct (issueV7_fails k n g ms e Hkn Hms Hrand Hread) as (g' & Hrun & Hrest).
  exists g'. split; [|exact Hrest].
  unfold GenerateBatchV7.
  destruct (Z.leb_spec (Z.of_nat n) 0) as [?|_]; [lia|].
  rewrite Nat2Z.id, batchLoop_issueV7 by (rewrite length_replicate; lia).
  by rewrite Hrun.
Qed.

(** ** Byte order follows time *)

Lemma lex_lt_cons (x y : Z) (a b : list Z) :
  lex_lt (x :: a) (y :: b) = (x <? y) || ((x =? y) && lex_lt a b).
Proof. reflexivity. Qed.

Lemma lex_lt_irrefl (a : list Z) : lex_lt a a = false.
Proof.
  induction a as [|x a IH]; [reflexivity|].
  rewrite lex_lt_cons, Z.ltb_irrefl, Z.eqb_refl, IH. reflexivity.
Qed.

(** One big-endian digit: when the bits above it agree, the byte at bit [k]
    decides the comparison or, being equal, leaves it to the bytes after. *)
Lemma lex_lt_digit (a b k : Z) (ta tb : list Z) :
  0 <= k -> a <= b ->
  a / 2 ^ (k + 8) = b / 2 ^ (k + 8) ->
  (a / 2 ^ k = b / 2 ^ k -> lex_lt ta tb = true) ->
  lex_lt ((a / 2 ^ k) mod 2 ^ 8 :: ta) ((b / 2 ^ k) mod 2 ^ 8 :: tb) = true.
Proof.
  intros Hk Hab Hhigh Hrest.
  assert (Hle : a / 2 ^ k <= b / 2 ^ k) by (apply Z.div_le_mono; lia).
  rewrite Z.pow_add_r, <- !Z.div_div in Hhigh by lia.
  revert Hhigh Hle Hrest. generalize (a / 2 ^ k) (b / 2 ^ k). intros x y Hhigh Hle Hrest.
  rewrite lex_lt_cons. change (2 ^ 8) with 256 in *.
  destruct (Z.ltb_spec (x mod 256) (y mod 256)) as [Hlt|Hge]; [reflexivity|].
  assert (Hxy : x = y) by (Z.div_mod_to_equations; lia).
  subst y. rewrite Z.eqb_refl. cbn [orb andb]. by apply Hrest.
Qed.

(** Six big-endian bytes compare as the 48-bit numbers they spell. *)
Lemma be48_lt (a b : Z) (ra rb : list Z) :
  0 <= a < b -> b < 2 ^ 48 ->
  lex_lt ([ (a / 2 ^ 40) mod 2 ^ 8; (a / 2 ^ 32) mod 2 ^ 8; (a / 2 ^ 24) mod 2 ^ 8;
            (a / 2 ^ 16) mod 2 ^ 8; (a / 2 ^ 8) mod 2 ^ 8; a mod 2 ^ 8 ] ++ ra)
         ([ (b / 2 ^ 40) mod 2 ^ 8; (b / 2 ^ 32) mod 2 ^ 8; (b / 2 ^ 24) mod 2 ^ 8;
            (b / 2 ^ 16) mod 2 ^ 8; (b / 2 ^ 8) mod 2 ^ 8; b mod 2 ^ 8 ] ++ rb) = true.
Proof.
  intros Hab Hb. cbn [app].
  apply (lex_lt_digit a b 40); [lia | lia | by rewrite !Z.div_small by (simpl; lia) |].
  intros H40. apply (lex_lt_digit a b 32); [lia | lia | exact H40 |].
  intros H32. apply (lex_lt_digit a b 24); [lia | lia | exact H32 |].
  intros H24. apply (lex_lt_digit a b 16); [lia | lia | exact H24 |].
  intros H16. apply (lex_lt_digit a b 8); [lia | lia | exact H16 |].
  intros H8. rewrite lex_lt_cons.
  assert (Hlt : a mod 2 ^ 8 < b mod 2 ^ 8).
  { clear - Hab H8. change (2 ^ 8) with 256 in *. Z.div_mod_to_equations. lia. }
  apply Z.ltb_lt in Hlt. by rewrite Hlt.
Qed.

(** The eight leading bytes of version 6 compare as the 60-bit timestamps
    they spell. *)
Lemma v6_time_lt (a b : Z) (ra rb : list Z) :
  0 <= a < b -> b < 2 ^ 60 ->
  lex_lt ([ (a / 2 ^ 52) mod 2 ^ 8; (a / 2 ^ 44) mod 2 ^ 8; (a / 2 ^ 36) mod 2 ^ 8;
            (a / 2 ^ 28) mod 2 ^ 8; (a / 2 ^ 20) mod 2 ^ 8; (a / 2 ^ 12) mod 2 ^ 8;
            0x60 + (a / 2 ^ 8) mod 2 ^ 4; a mod 2 ^ 8 ] ++ ra)
         ([ (b / 2 ^ 52) mod 2 ^ 8; (b / 2 ^ 44) mod 2 ^ 8; (b / 2 ^ 36) mod 2 ^ 8;
            (b / 2 ^ 28) mod 2 ^ 8; (b / 2 ^ 20) mod 2 ^ 8; (b / 2 ^ 12) mod 2 ^ 8;
            0x60 + (b / 2 ^ 8) mod 2 ^ 4; b mod 2 ^ 8 ] ++ rb) = true.
Proof.
  intros Hab Hb. cbn [app].
  apply (lex_lt_digit a b 52); [lia | lia | by rewrite !Z.div_small by (simpl; lia) |].
  intros H52. apply (lex_lt_digit a b 44); [lia | lia | exact H52 |].
  intros H44. apply (lex_lt_digit a b 36); [lia | lia | exact H44 |].
  intros H36. apply (lex_lt_digit a b 28); [lia | lia | exact H36 |].
  intros H28. apply (lex_lt_digit a b 20); [lia | lia | exact H28 |].
  intros H20. apply (lex_lt_digit a b 12); [lia | lia | exact H20 |].
  intros H12. rewrite !lex_lt_cons. clear - Hab H12.
  change (2 ^ 12) with 4096 in *. change (2 ^ 8) with 256. change (2 ^ 4) with 16.
  destruct (Z.ltb_spec (96 + (a / 256) mod 16) (96 + (b / 256) mod 16)) as [?|Hge];
    [reflexivity|].
  destruct (Z.eqb_spec (96 + (a / 256) mod 16) (96 + (b / 256) mod 16)) as [Heq|Hne];
    [|exfalso; Z.div_mod_to_equations; lia].
  cbn [orb andb].
  assert (Hlt : a mod 256 < b mod 256) by (Z.div_mod_to_equations; lia).
  apply Z.ltb_lt in Hlt. by rewrite Hlt.
Qed.

(** [getEpoch] never wraps: whatever the time, it is the offset between the
    two epochs plus the Unix time in units of 100 ns, and it fits in 60
    bits. *)
Lemma getEpoch_exact (atTime : Time) :
  getEpoch atTime = epochStart + Z.quot (UnixNano atTime) 100
  /\ 0 < getEpoch atTime < 2 ^ 60.
Proof.
  unfold getEpoch.
  assert (Hn : - 2 ^ 63 <= UnixNano atTime < 2 ^ 63).
  { unfold UnixNano, int64. generalize (unixSec atTime * 1000000000 + nsec atTime).
    intros x. pose proof (Z.mod_pos_bound (x + 2 ^ 63) (2 ^ 64) ltac:(lia)). lia. }
  revert Hn. generalize (UnixNano atTime). intros n Hn.
  assert (Hq : -92233720368547759 <= Z.quot n 100 <= 92233720368547759).
  { change (2 ^ 63) with 9223372036854775808 in Hn.
    destruct (Z.le_gt_cases 0 n) as [Hpos|Hneg].
    - rewrite Z.quot_div_nonneg by lia. Z.div_mod_to_equations. lia.
    - replace n with (- (- n)) by lia. rewrite Z.quot_opp_l by lia.
      rewrite Z.quot_div_nonneg by lia. Z.div_mod_to_equations. lia. }
  revert Hq. generalize (Z.quot n 100). intros q Hq.
  unfold uint64, epochStart. change (2 ^ 64) with 18446744073709551616.
  change (2 ^ 60) with 1152921504606846976.
  Z.div_mod_to_equations. lia.
Qed.


(** The 100 ns timestamp never wraps around.  For every time, [getEpoch] is
    the offset between the two epochs plus the Unix nanoseconds divided by
    100 (rounded toward zero), it is positive and below 2^60, so the
    version nibble never overwrites a timestamp bit, and it does not
    decrease when the Unix time does not. *)
Theorem getEpoch_no_wraparound (atTime : Time) :
  getEpoch atTime = epochStart + Z.quot (UnixNano atTime) 100
  /\ 0 < getEpoch atTime < 2 ^ 60
  /\ forall later : Time,
       UnixNano atTime <= UnixNano later -> getEpoch atTime <= getEpoch later.
Proof.
  destruct (getEpoch_exact atTime) as [Heq Hrange].
  split; [exact Heq|]. split; [exact Hrange|].
  intros later Hle. destruct (getEpoch_exact later) as [Heq' _].
  rewrite Heq, Heq'. apply Z.add_le_mono_l. apply Z.quot_le_mono; lia.
Qed.

(** Version 6 sorts by time.  Of two identifiers from successful
    [NewV6AtTime] calls, on the same or on different generators, the one
    with the smaller 100 ns timestamp is the smaller in byte order,
    whatever the random bytes. *)
Theorem NewV6AtTime_sorted_by_time
  (t1 t2 : Time) (g1 g1' g2 g2' : Gen) (u1 u2 : UUID) :
  NewV6AtTime t1 g1 = (Ok u1, g1') ->
  NewV6AtTime t2 g2 = (Ok u2, g2') ->
  getEpoch t1 < getEpoch t2 ->
  lex_lt u1 u2 = true.
Proof.
  intros H1 H2 Hlt.
  destruct (NewV6AtTime_bytes _ _ _ _ H1) as (a0 & a1 & a2 & a3 & a4 & a5 & a6 & a7 & _ & ->).
  destruct (NewV6AtTime_bytes _ _ _ _ H2) as (b0 & b1 & b2 & b3 & b4 & b5 & b6 & b7 & _ & ->).
  destruct (getEpoch_exact t1) as [_ Hr1]. destruct (getEpoch_exact t2) as [_ Hr2].
  apply (v6_time_lt (getEpoch t1) (getEpoch t2)
           [0x80 + a0 mod 2 ^ 6; a1; a2; a3; a4; a5; a6; a7]
           [0x80 + b0 mod 2 ^ 6; b1; b2; b3; b4; b5; b6; b7]); lia.
Qed.

(** Version 7 sorts by millisecond.  Of two identifiers from successful
    [NewV7AtTime] calls, the one with the smaller millisecond timestamp is
    the smaller in byte order, as long as the timestamps fit the 48 bits
    of the field. *)
Theorem NewV7AtTime_sorted_by_millisecond
  (t1 t2 : Time) (g1 g1' g2 g2' : Gen) (u1 u2 : UUID) :
  NewV7AtTime t1 g1 = (Ok u1, g1') ->
  NewV7AtTime t2 g2 = (Ok u2, g2') ->
  uint64 (UnixMilli t1) < uint64 (UnixMilli t2) ->
  uint64 (UnixMilli t2) < 2 ^ 48 ->
  lex_lt u1 u2 = true.
Proof.
  intros H1 H2 Hlt Hbound.
  destruct (NewV7AtTime_Ok_inv _ _ _ _ H1)
    as (c1 & s1 & a0 & a1 & a2 & a3 & a4 & a5 & a6 & a7 & _ & _ & -> & _).
  destruct (NewV7AtTime_Ok_inv _ _ _ _ H2)
    as (c2 & s2 & b0 & b1 & b2 & b3 & b4 & b5 & b6 & b7 & _ & _ & -> & _).
  rewrite !v7Prefix_digits. unfold timestamp.
  assert (H0 : 0 <= uint64 (UnixMilli t1)) by (apply Z.mod_pos_bound; lia).
  match goal with
  | |- lex_lt ([?x0; ?x1; ?x2; ?x3; ?x4; ?x5; ?x6; ?x7] ++ ?ra)
              ([?y0; ?y1; ?y2; ?y3; ?y4; ?y5; ?y6; ?y7] ++ ?rb) = true =>
      change (lex_lt ([x0; x1; x2; x3; x4; x5] ++ (x6 :: x7 :: ra))
                     ([y0; y1; y2; y3; y4; y5] ++ (y6 :: y7 :: rb)) = true)
  end.
  apply be48_lt; lia.
Qed.

(** Version 7 inside one millisecond.  Two successful [NewV7AtTime] calls
    in a row at the same instant advance the clock sequence by one modulo
    2^16 and return different identifiers; the second is the greater in
    byte order unless the low twelve bits of the clock sequence were all
    ones, in which case it is the smaller. *)
Theorem NewV7AtTime_same_instant
  (atTime : Time) (g g1 g2 : Gen) (u1 u2 : UUID) :
  NewV7AtTime atTime g = (Ok u1, g1) ->
  NewV7AtTime atTime g1 = (Ok u2, g2) ->
  clockSequence g2 = (clockSequence g1 + 1) mod 2 ^ 16
  /\ u1 <> u2
  /\ (clockSequence g1 mod 2 ^ 12 <> 2 ^ 12 - 1 -> lex_lt u1 u2 = true)
  /\ (clockSequence g1 mod 2 ^ 12 = 2 ^ 12 - 1 -> lex_lt u2 u1 = true).
Proof.
  intros H1 H2.
  destruct (NewV7AtTime_Ok_inv _ _ _ _ H1)
    as (c1 & s1 & a0 & a1 & a2 & a3 & a4 & a5 & a6 & a7 & Ht1 & _ & -> & ->).
  destruct (NewV7AtTime_Ok_inv _ _ _ _ H2)
    as (c2 & s2 & b0 & b1 & b2 & b3 & b4 & b5 & b6 & b7 & Ht2 & _ & -> & ->).
  destruct (getClockSequence_Ok_inv _ _ _ _ _ _ Ht1) as (s0 & Hseed & _ & _ & Hs1).
  destruct (seedClockSequence_Ok _ _ Hseed) as (Honce & _ & _).
  rewrite getClockSequence_seeded in Ht2 by (by subst s1).
  assert (Hc1 : clockSequence s1 = c1) by (by subst s1).
  assert (Hl1 : lastTime s1 = timestamp true atTime) by (by subst s1).
  cbn [lastTime clockSequence set_rand] in Ht2. rewrite Hl1, Z.leb_refl, Hc1 in Ht2.
  inversion Ht2 as [[Hc2 Hs2]]. clear Ht2.
  cbn [clockSequence set_rand]. rewrite Hc1.
  set (ms := timestamp true atTime) in *.
  set (ta := [Z.lor (Z.land a0 63) 128; a1; a2; a3; a4; a5; a6; a7]).
  set (tb := [Z.lor (Z.land b0 63) 128; b1; b2; b3; b4; b5; b6; b7]).
  assert (Hup : c1 mod 2 ^ 12 <> 2 ^ 12 - 1 ->
                lex_lt (v7Prefix ms c1 ++ ta) (v7Prefix ms (uint16 (c1 + 1)) ++ tb) = true).
  { intros Hne. apply v7Prefix_lt. unfold uint16. revert Hne.
    change (2 ^ 12) with 4096. change (2 ^ 16) with 65536.
    intros Hne. Z.div_mod_to_equations. lia. }
  assert (Hdown : c1 mod 2 ^ 12 = 2 ^ 12 - 1 ->
                  lex_lt (v7Prefix ms (uint16 (c1 + 1)) ++ tb) (v7Prefix ms c1 ++ ta) = true).
  { intros Heq. apply v7Prefix_lt. unfold uint16. revert Heq.
    change (2 ^ 12) with 4096. change (2 ^ 16) with 65536.
    intros Heq. Z.div_mod_to_equations. lia. }
  split; [by subst s2|]. split; [|split; [exact Hup | exact Hdown]].
  intros Heq.
  destruct (Z.eq_dec (c1 mod 2 ^ 12) (2 ^ 12 - 1)) as [Hw|Hw].
  - specialize (Hdown Hw). rewrite <- Heq, lex_lt_irrefl in Hdown. discriminate.
  - specialize (Hup Hw). rewrite <- Heq, lex_lt_irrefl in Hup. discriminate.
Qed.

(** ** The tracker over several calls *)

(** The tracker never answers twice in a row with the same pair: for two
    successful calls one after the other, whatever their flags and times,
    the (timestamp, clock sequence) pairs differ. *)
Theorem getClockSequence_never_repeats
  (f1 f2 : bool) (t1 t2 : Time) (g g1 g2 : Gen) (r1 r2 : Z * Z) :
  getClockSequence f1 t1 g = (Ok r1, g1) ->
  getClockSequence f2 t2 g1 = (Ok r2, g2) ->
  r1 <> r2.
Proof.
  destruct r1 as [ts1 cs1]. destruct r2 as [ts2 cs2]. intros H1 H2.
  destruct (getClockSequence_Ok_inv _ _ _ _ _ _ H1) as (s0 & Hseed & Hts1 & _ & Hg1).
  destruct (seedClockSequence_Ok _ _ Hseed) as (Honce & _ & _).
  rewrite getClockSequence_seeded in H2 by (by subst g1).
  replace (lastTime g1) with ts1 in H2 by (by subst g1).
  replace (clockSequence g1) with cs1 in H2 by (by subst g1).
  injection H2 as Hts2 Hcs2 Hg2.
  intros Heq. injection Heq as Ets Ecs.
  rewrite Hts2, <- Ets, Z.leb_refl, <- Ecs in Hcs2.
  clear - Hcs2. unfold uint16 in Hcs2. change (2 ^ 16) with 65536 in Hcs2.
  revert Hcs2. Z.div_mod_to_equations. lia.
Qed.

(** While time advances the clock sequence stays.  On a seeded generator, a
    series of tracker calls whose timestamps each exceed the one before
    (the first exceeding the stored one) succeeds, returns the stored
    clock sequence with every timestamp, and reads no random byte. *)
Theorem clockSequence_kept_while_time_advances
  (calls : list (bool * Time)) (g : Gen) :
  clockSequenceOnce g = true ->
  advancing (lastTime g) calls ->
  exists g' : Gen,
    trackerCalls calls g
    = (Ok (map (fun c => (timestamp c.1 c.2, clockSequence g)) calls), g')
    /\ clockSequence g' = clockSequence g
    /\ rand g' = rand g.
Proof.
  revert g. induction calls as [|[f t] rest IH]; intros g Honce Hadv; simpl.
  - by exists g.
  - destruct Hadv as [Hlt Hrest]. unfold bind.
    rewrite getClockSequence_seeded by done.
    destruct (Z.leb_spec (timestamp f t) (lastTime g)) as [?|_]; [lia|].
    match goal with |- context [trackerCalls rest ?s] =>
      destruct (IH s) as (g' & Hrun & Hcs & Hrand); [done | exact Hrest |] end.
    rewrite Hrun. exists g'. split; [reflexivity|]. split; [by rewrite Hcs | by rewrite Hrand].
Qed.

(** ** The hardware address taken from its source *)

(** The hardware address taken from its source.  On the first resolution,
    when the source returns an address, its first six bytes overwrite the
    cache (an address shorter than six bytes overwrites only its own length
    and leaves the rest of the cache), no random byte is read, the source
    has been called once, and the next call returns the cache without
    calling it again. *)
Theorem getHardwareAddr_from_source (g : Gen) (hwAddr : list Z) :
  hardwareAddrOnce g = false ->
  length (hardwareAddr g) = 6%nat ->
  hwsrc (hwAddrFunc g) (hwcalls (hwAddrFunc g)) = Ok hwAddr ->
  exists g' : Gen,
    getHardwareAddr g
    = (Ok (take 6 hwAddr ++ drop (length hwAddr) (hardwareAddr g)), g')
    /\ rand g' = rand g
    /\ hwcalls (hwAddrFunc g') = S (hwcalls (hwAddrFunc g))
    /\ getHardwareAddr g' = (Ok (hardwareAddr g'), g')
    /\ ((6 <= length hwAddr)%nat -> hardwareAddr g' = take 6 hwAddr).
Proof.
  intros Honce Hlen Hsrc.
  unfold getHardwareAddr at 1. unfold bind, resolveHardwareAddr.
  rewrite Honce, Hsrc. cbn [hardwareAddr set_hwAddrFunc set_hardwareAddrOnce].
  unfold copy. rewrite Hlen.
  eexists. split; [reflexivity|]. split; [reflexivity|]. split; [reflexivity|].
  split; [by rewrite getHardwareAddr_cached|].
  intros Hsix. cbn [hardwareAddr set_hardwareAddr].
  rewrite drop_ge by lia. apply app_nil_r.
Qed.

Lemma firstHardwareAddr_finds_first (ifaces : list (list Z)) :
  match firstHardwareAddr ifaces with
  | Ok a =>
      exists before after : list (list Z),
        ifaces = before ++ a :: after
        /\ (6 <= length a)%nat
        /\ Forall (fun x => (length x < 6)%nat) before
  | Err e =>
      e = ErrNoHwAddressFound /\ Forall (fun x => (length x < 6)%nat) ifaces
  end.
Proof.
  induction ifaces as [|a rest IH]; cbn [firstHardwareAddr].
  - split; [reflexivity | constructor].
  - destruct (Nat.leb_spec 6 (length a)) as [Hge|Hlt].
    + exists [], rest. split; [reflexivity|]. split; [exact Hge | constructor].
    + revert IH. destruct (firstHardwareAddr rest) as [b|e]; intros IH.
      * destruct IH as (before & after & -> & Hb & Hshort).
        exists (a :: before), after. split; [reflexivity|]. split; [exact Hb|].
        constructor; [exact Hlt | exact Hshort].
      * destruct IH as [-> Hshort]. split; [reflexivity|].
        constructor; [exact Hlt | exact Hshort].
Qed.

(** The default hardware-address function returns the address of the first
    interface that has at least six bytes: every interface before it is
    shorter.  It fails with the error of the interface listing, or with
    ErrNoHwAddressFound exactly when every interface is shorter than six
    bytes. *)
Theorem defaultHWAddrFunc_first_usable (d : Defaults) (k : nat) :
  match hwsrc (defaultHWAddrFunc d) k with
  | Ok a =>
      exists ifaces before after : list (list Z),
        netInterfaces d k = Ok ifaces
        /\ ifaces = before ++ a :: after
        /\ (6 <= length a)%nat
        /\ Forall (fun x => (length x < 6)%nat) before
  | Err e =>
      netInterfaces d k = Err e
      \/ (e = ErrNoHwAddressFound
          /\ exists ifaces : list (list Z),
               netInterfaces d k = Ok ifaces
               /\ Forall (fun x => (length x < 6)%nat) ifaces)
  end.
Proof.
  cbn [defaultHWAddrFunc hwsrc].
  destruct (netInterfaces d k) as [ifaces|e]; [|by left].
  pose proof (firstHardwareAddr_finds_first ifaces) as Hfirst.
  destruct (firstHardwareAddr ifaces) as [a|e].
  - destruct Hfirst as (before & after & Hsplit & Hlen & Hshort).
    by exists ifaces, before, after.
  - destruct Hfirst as [-> Hshort]. right. split; [reflexivity|]. by exists ifaces.
Qed.

(** ** Construction *)

Lemma builtin_options_keep_state (d : Defaults) (opts : list GenOption) :
  Forall builtinOption opts ->
  forall g : Gen,
    let g' := fold_left (fun gen opt => opt d gen) opts g in
    clockSequenceOnce g' = clockSequenceOnce g
    /\ hardwareAddrOnce g' = hardwareAddrOnce g
    /\ lastTime g' = lastTime g
    /\ clockSequence g' = clockSequence g
    /\ hardwareAddr g' = hardwareAddr g.
Proof.
  induction 1 as [|opt opts Hopt _ IH]; intros g; simpl; [done|].
  destruct (IH (opt d g)) as (H1 & H2 & H3 & H4 & H5).
  rewrite H1, H2, H3, H4, H5. by destruct Hopt.
Qed.

(** New generators start fresh.  Built with any list of the package's own
    options, a generator has both once-flags unset, last timestamp 0, clock
    sequence 0 and an all-zero address cache, and a batch generator has
    counter 0; an option given last decides its collaborator; and options
    given as nil build the same generator as [NewGen]. *)
Theorem new_generators_start_fresh (d : Defaults) (opts : list GenOption) :
  Forall builtinOption opts ->
  freshState (NewGenWithOptions d opts)
  /\ freshState (embedded (NewMonotonicGen d opts))
  /\ monotonicCounter (NewMonotonicGen d opts) = 0
  /\ (forall reader : Reader,
        rand (NewGenWithOptions d (opts ++ [WithRandomReader (Some reader)])) = reader)
  /\ (forall epochf : EpochFunc,
        epochFunc (NewGenWithOptions d (opts ++ [WithEpochFunc (Some epochf)])) = epochf)
  /\ (forall hwaf : HWAddrFunc,
        hwAddrFunc (NewGenWithOptions d (opts ++ [WithHWAddrFunc (Some hwaf)])) = hwaf)
  /\ NewGenWithOptions d [WithHWAddrFunc None; WithEpochFunc None; WithRandomReader None]
     = NewGen d.
Proof.
  intros Hopts.
  assert (Hfresh : freshState (NewGenWithOptions d opts)).
  { unfold NewGenWithOptions, freshState.
    match goal with |- context [fold_left _ opts ?g0] =>
      destruct (builtin_options_keep_state d opts Hopts g0) as (-> & -> & -> & -> & ->) end.
    done. }
  split; [exact Hfresh|]. split; [exact Hfresh|]. split; [reflexivity|].
  unfold NewGenWithOptions. split; [|split; [|split]].
  - intros reader. by rewrite fold_left_app.
  - intros epochf. by rewrite fold_left_app.
  - intros hwaf. by rewrite fold_left_app.
  - reflexivity.
Qed.

(** ** A payload read that fails after the tracker has run *)

(** A payload read that fails after the tracker has run.  When the tracker
    call of [NewV6AtTime] or [NewV7AtTime] succeeds and the read of the
    eight payload bytes then fails with e, the call returns e, and the
    generator keeps the tracker's step: its last timestamp and clock
    sequence are those the tracker returned. *)
Theorem failed_payload_keeps_tracker_step
  (atTime : Time) (g : Gen) (e : error) :
  (forall (ts cs : Z) (g1 : Gen),
     getClockSequence false atTime g = (Ok (ts, cs), g1) ->
     (ReadFull (rand g1) (replicate 8 0)).2 = Some e ->
     exists g' : Gen,
       NewV6AtTime atTime g = (Err e, g')
       /\ lastTime g' = ts /\ clockSequence g' = cs /\ clockSequenceOnce g' = true)
  /\ (forall (ts cs : Z) (g1 : Gen),
        getClockSequence true atTime g = (Ok (ts, cs), g1) ->
        (ReadFull (rand g1) (replicate 8 0)).2 = Some e ->
        exists g' : Gen,
          NewV7AtTime atTime g = (Err e, g')
          /\ lastTime g' = ts /\ clockSequence g' = cs /\ clockSequenceOnce g' = true).
Proof.
  split; intros ts cs g1 Htrack Hread.
  - destruct (getClockSequence_Ok_inv _ _ _ _ _ _ Htrack) as (g0 & Hseed & _ & _ & Hg1).
    destruct (seedClockSequence_Ok _ _ Hseed) as (Honce & _ & _).
    unfold NewV6AtTime, bind. rewrite Htrack. unfold readRand.
    cbv [BigEndian_PutUint32 BigEndian_PutUint16 Nil
         replicate insert list_insert take firstn drop skipn] in *.
    destruct (ReadFull (rand g1) [0; 0; 0; 0; 0; 0; 0; 0]) as [[buf r] e'].
    simpl in Hread. subst e'. eexists. split; [reflexivity|]. by subst g1.
  - destruct (getClockSequence_Ok_inv _ _ _ _ _ _ Htrack) as (g0 & Hseed & _ & _ & Hg1).
    destruct (seedClockSequence_Ok _ _ Hseed) as (Honce & _ & _).
    unfold NewV7AtTime, bind. rewrite Htrack. unfold readRand.
    cbv [BigEndian_PutUint16 SetVersion Nil putUnixMs
         replicate insert list_insert alter list_alter take firstn drop skipn] in *.
    destruct (ReadFull (rand g1) [0; 0; 0; 0; 0; 0; 0; 0]) as [[buf r] e'].
    simpl in Hread. subst e'. eexists. split; [reflexivity|]. by subst g1.
Qed.

(** ** The further properties at concrete inputs *)

Lemma NewV1AtTime_layout_witness :
  let g := NewGen stubDefaults in
  let r := NewV1AtTime epoch2023 g in
  V1Layout (getEpoch epoch2023)
           (clockSequence (getClockSequence false epoch2023 g).2)
           (hardwareAddr r.2) (valueOf r.1)
  /\ clockSequence r.2 = clockSequence (getClockSequence false epoch2023 g).2
  /\ lastTime r.2 = getEpoch epoch2023
  /\ hardwareAddrOnce r.2 = true.
Proof.
  intros g r. apply (NewV1AtTime_layout epoch2023 g r.2 (valueOf r.1)).
  - reflexivity.
  - vm_compute. reflexivity.
Defined.

Lemma NewV7AtTime_layout_witness :
  let g := NewGen stubDefaults in
  let r := NewV7AtTime epoch2023 g in
  let tracked := (getClockSequence true epoch2023 g).2 in
  V7Layout (uint64 (UnixMilli epoch2023)) (clockSequence tracked)
           (nextRandom tracked 8) (valueOf r.1)
  /\ rand r.2 = mkReader (script (rand tracked)) (pos (rand tracked) + 8).
Proof.
  intros g r tracked. apply (NewV7AtTime_layout epoch2023 g r.2 (valueOf r.1)).
  vm_compute. reflexivity.
Defined.

Lemma NewV4_layout_witness :
  let g := NewGen stubDefaults in
  let r := NewV4 g in
  Stamped 4 (nextRandom g 16) (valueOf r.1)
  /\ r.2 = set_rand (mkReader (script (rand g)) (pos (rand g) + 16)) g.
Proof.
  intros g r. apply (NewV4_layout g r.2 (valueOf r.1)).
  vm_compute. reflexivity.
Defined.

Lemma GenerateBatchV7_is_series_witness :
  GenerateBatchV7 (Z.of_nat 3) (NewMonotonicGen stubDefaults [])
  = issueV7 3 (NewMonotonicGen stubDefaults []).
Proof.
  apply (GenerateBatchV7_is_series 3 (NewMonotonicGen stubDefaults [])). lia.
Defined.

Lemma GenerateBatchV7_split_witness :
  let g := NewMonotonicGen stubDefaults [] in
  let r1 := GenerateBatchV7 (Z.of_nat 2) g in
  let r2 := GenerateBatchV7 (Z.of_nat 3) r1.2 in
  GenerateBatchV7 (Z.of_nat (2 + 3)) g = (Ok (listOf r1.1 ++ listOf r2.1), r2.2).
Proof.
  intros g r1 r2.
  apply (GenerateBatchV7_split 2 3 g r1.2 r2.2 (listOf r1.1) (listOf r2.1)).
  - lia.
  - lia.
  - vm_compute. reflexivity.
  - vm_compute. reflexivity.
Defined.

Lemma GenerateBatchV7_Ok_shape_witness :
  let g := NewMonotonicGen stubDefaults [] in
  exists uuids : list UUID,
    (GenerateBatchV7 3 g).1 = Ok uuids
    /\ 0 < 3
    /\ Z.of_nat (length uuids) = 3
    /\ Forall (hasVersion 7) uuids.
Proof.
  intros g.
  destruct (GenerateBatchV7 3 g) as [[uuids|e] g'] eqn:H; [|vm_compute in H; discriminate].
  exists uuids. split; [reflexivity|].
  apply (GenerateBatchV7_Ok_shape 3 g g' uuids). exact H.
Defined.

Lemma identifiers_carry_version_and_variant_witness :
  hasVersion 1 (valueOf (NewV1AtTime epoch2023 (NewGen stubDefaults)).1)
  /\ hasVersion 4 (valueOf (NewV4 (NewGen stubDefaults)).1)
  /\ hasVersion 6 (valueOf (NewV6AtTime epoch2023 (NewGen stubDefaults)).1)
  /\ hasVersion 7 (valueOf (NewV7AtTime epoch2023 (NewGen stubDefaults)).1).
Proof.
  destruct identifiers_carry_version_and_variant as (H1 & _ & H4 & _ & H6 & H7).
  split; [|split; [|split]].
  - apply (H1 epoch2023 (NewGen stubDefaults)
              (NewV1AtTime epoch2023 (NewGen stubDefaults)).2).
    vm_compute. reflexivity.
  - apply (H4 (NewGen stubDefaults) (NewV4 (NewGen stubDefaults)).2).
    vm_compute. reflexivity.
  - apply (H6 epoch2023 (NewGen stubDefaults)
              (NewV6AtTime epoch2023 (NewGen stubDefaults)).2).
    vm_compute. reflexivity.
  - apply (H7 epoch2023 (NewGen stubDefaults)
              (NewV7AtTime epoch2023 (NewGen stubDefaults)).2).
    vm_compute. reflexivity.
Defined.

Lemma GenerateBatchV7_fails_midway_witness :
  let g := NewMonotonicGen stubDefaults [WithRandomReader (Some nineteenBytes)] in
  exists g' : MonotonicGen,
    GenerateBatchV7 (Z.of_nat 5) g = (Err ErrUnexpectedEOF, g')
    /\ monotonicCounter g' = uint16 (nextCounter g 1700000000000 + Z.of_nat 2)
    /\ lastTime (embedded g') = 1700000000000
    /\ ticks (epochFunc (embedded g')) = (ticks (epochFunc (embedded g)) + 3)%nat.
Proof.
  intros g.
  apply (GenerateBatchV7_fails_midway 5 2 g 1700000000000 ErrUnexpectedEOF).
  - lia.
  - intros k _. reflexivity.
  - intros i Hi. exists 0. simpl in *.
    destruct (Nat.ltb_spec i 19) as [_|Hge]; [reflexivity | lia].
  - reflexivity.
Defined.

Lemma getEpoch_no_wraparound_witness :
  getEpoch epoch2023 = epochStart + Z.quot (UnixNano epoch2023) 100
  /\ 0 < getEpoch epoch2023 < 2 ^ 60
  /\ getEpoch epoch2023 <= getEpoch (mkTime 1700000001 0).
Proof.
  destruct (getEpoch_no_wraparound epoch2023) as (Heq & Hrange & Hmono).
  split; [exact Heq|]. split; [exact Hrange|].
  apply (Hmono (mkTime 1700000001 0)). vm_compute. discriminate.
Defined.

Lemma NewV6AtTime_sorted_by_time_witness :
  let g := NewGen stubDefaults in
  lex_lt (valueOf (NewV6AtTime epoch2023 g).1)
         (valueOf (NewV6AtTime (mkTime 1700000000 100) g).1) = true.
Proof.
  intros g.
  apply (NewV6AtTime_sorted_by_time epoch2023 (mkTime 1700000000 100)
           g (NewV6AtTime epoch2023 g).2 g (NewV6AtTime (mkTime 1700000000 100) g).2).
  - vm_compute. reflexivity.
  - vm_compute. reflexivity.
  - vm_compute. reflexivity.
Defined.

Lemma NewV7AtTime_sorted_by_millisecond_witness :
  let g := NewGen stubDefaults in
  lex_lt (valueOf (NewV7AtTime epoch2023 g).1)
         (valueOf (NewV7AtTime (mkTime 1700000000 1000000) g).1) = true.
Proof.
  intros g.
  apply (NewV7AtTime_sorted_by_millisecond epoch2023 (mkTime 1700000000 1000000)
           g (NewV7AtTime epoch2023 g).2 g (NewV7AtTime (mkTime 1700000000 1000000) g).2).
  - vm_compute. reflexivity.
  - vm_compute. reflexivity.
  - vm_compute. reflexivity.
  - vm_compute. reflexivity.
Defined.

Lemma NewV7AtTime_same_instant_witness :
  let g := NewGen stubDefaults in
  let r1 := NewV7AtTime epoch2023 g in
  let r2 := NewV7AtTime epoch2023 r1.2 in
  clockSequence r2.2 = (clockSequence r1.2 + 1) mod 2 ^ 16
  /\ valueOf r1.1 <> valueOf r2.1
  /\ lex_lt (valueOf r1.1) (valueOf r2.1) = true.
Proof.
  intros g r1 r2.
  destruct (NewV7AtTime_same_instant epoch2023 g r1.2 r2.2 (valueOf r1.1) (valueOf r2.1))
    as (Hcs & Hne & Hup & _).
  - vm_compute. reflexivity.
  - vm_compute. reflexivity.
  - split; [exact Hcs|]. split; [exact Hne|]. apply Hup. vm_compute. discriminate.
Defined.

Lemma getClockSequence_never_repeats_witness :
  let g := NewGen stubDefaults in
  let r1 := getClockSequence true epoch2023 g in
  let r2 := getClockSequence true epoch2023 r1.2 in
  (1700000000000, 0) <> (1700000000000, 1).
Proof.
  intros g r1 r2.
  apply (getClockSequence_never_repeats true true epoch2023 epoch2023 g r1.2 r2.2).
  - vm_compute. reflexivity.
  - vm_compute. reflexivity.
Defined.

Lemma clockSequence_kept_while_time_advances_witness :
  let g := (getClockSequence true epoch2023 (NewGen stubDefaults)).2 in
  let calls := [(true, mkTime 1700000001 0); (true, mkTime 1700000002 0)] in
  exists g' : Gen,
    trackerCalls calls g
    = (Ok (map (fun c => (timestamp c.1 c.2, clockSequence g)) calls), g')
    /\ clockSequence g' = clockSequence g
    /\ rand g' = rand g.
Proof.
  intros g calls. apply (clockSequence_kept_while_time_advances calls g).
  - reflexivity.
  - vm_compute. repeat split; reflexivity.
Defined.

Lemma getHardwareAddr_from_source_witness :
  let g := NewGenWithOptions stubDefaults [WithHWAddrFunc (Some sevenByteNode)] in
  exists g' : Gen,
    getHardwareAddr g
    = (Ok (take 6 [0xde; 0xad; 0xbe; 0xef; 0x00; 0x01; 0x99]
           ++ drop 7 (hardwareAddr g)), g')
    /\ rand g' = rand g
    /\ hwcalls (hwAddrFunc g') = S (hwcalls (hwAddrFunc g))
    /\ getHardwareAddr g' = (Ok (hardwareAddr g'), g')
    /\ ((6 <= 7)%nat -> hardwareAddr g' = take 6 [0xde; 0xad; 0xbe; 0xef; 0x00; 0x01; 0x99]).
Proof.
  intros g.
  apply (getHardwareAddr_from_source g [0xde; 0xad; 0xbe; 0xef; 0x00; 0x01; 0x99]);
    reflexivity.
Defined.

Lemma new_generators_start_fresh_witness :
  let opts := [WithEpochFunc (Some (fixedClock epoch2023)); WithRandomReader None] in
  freshState (NewGenWithOptions stubDefaults opts)
  /\ monotonicCounter (NewMonotonicGen stubDefaults opts) = 0
  /\ rand (NewGenWithOptions stubDefaults (opts ++ [WithRandomReader (Some nineteenBytes)]))
     = nineteenBytes.
Proof.
  intros opts.
  destruct (new_generators_start_fresh stubDefaults opts) as (Hfresh & _ & Hctr & Hrand & _).
  - repeat constructor.
  - split; [exact Hfresh|]. split; [exact Hctr|]. apply Hrand.
Defined.

Lemma NewV1AtTime_same_instant_witness :
  let g := NewGen stubDefaults in
  let r1 := NewV1AtTime epoch2023 g in
  let r2 := NewV1AtTime epoch2023 r1.2 in
  valueOf r1.1 <> valueOf r2.1
  /\ take 8 (valueOf r1.1) = take 8 (valueOf r2.1)
  /\ drop 10 (valueOf r1.1) = drop 10 (valueOf r2.1)
  /\ clockSequence r2.2 = (clockSequence r1.2 + 1) mod 2 ^ 16.
Proof.
  intros g r1 r2.
  apply (NewV1AtTime_same_instant epoch2023 g r1.2 r2.2 (valueOf r1.1) (valueOf r2.1)).
  - reflexivity.
  - vm_compute. reflexivity.
  - vm_compute. reflexivity.
Defined.

Lemma failed_payload_keeps_tracker_step_witness :
  let g := NewGenWithOptions stubDefaults [WithRandomReader (Some shortReader)] in
  exists g' : Gen,
    NewV7AtTime epoch2023 g = (Err EOF, g')
    /\ lastTime g' = 1700000000000 /\ clockSequence g' = 0xabab
    /\ clockSequenceOnce g' = true.
Proof.
  intros g.
  apply (proj2 (failed_payload_keeps_tracker_step epoch2023 g EOF)
           1700000000000 0xabab (getClockSequence true epoch2023 g).2).
  - vm_compute. reflexivity.
  - vm_compute. reflexivity.
Defined.
